(** * Jira_CreateTicket.py: the dedup-and-link decision procedure

    A shallow embedding of [src/Jira_CreateTicket.py] (class
    [JiraIntegration] and [main]) and the properties its specification
    states about it.

    Modelling choices.
    - Python [str] is [string]; [str.lower] is the ASCII lower-casing
      ([lower]), bytes above 127 are left as they are.
    - Decoded JSON is [json]; Python truthiness is [truthy].
    - A Python [dict] used as a map with an iteration order (the tables of
      [config.py]) is an association list holding the items in insertion
      order; the [custom_fields] dict built by [main] is a [gmap].
    - The remote service, the file system and the clock are an oracle
      [remote]: one answer per request.  A raised
      [requests.exceptions.RequestException] is [RequestException msg].
      Answers are taken well-typed for the REST schema the code reads
      (an issue has a key, a status name that may be missing, and fields).
    - Effects are a writer monad [io]: every HTTP request and every line
      printed on the paths modelled is an [event] of the trace, in program
      order.  The dumps of remote error bodies ([Error details: ...]) are
      not part of the trace.
    - [main] returns the process exit code: 0 when it returns, 1 at
      [sys.exit(1)].
    - [create_subtask], which [main] never calls, is modelled apart, with
      its own request event.

    The wizard of [src/setup_config.py] follows in module [Setup]. *)

From Stdlib Require Import Ascii.
From stdpp Require Import gmap strings list fin_maps pretty.

(** ** Strings *)

Definition nl : string := String (ascii_of_nat 10) EmptyString.

Definition lower_ascii (c : ascii) : ascii :=
  let n := nat_of_ascii c in
  if (65 <=? n)%nat && (n <=? 90)%nat then ascii_of_nat (n + 32) else c.

Fixpoint lower (s : string) : string :=
  match s with
  | EmptyString => EmptyString
  | String c s' => String (lower_ascii c) (lower s')
  end.

(** [if s:] on a [str]. *)
Definition nonempty (s : string) : bool :=
  match s with EmptyString => false | String _ _ => true end.

(** [if o:] on an [Optional[str]]. *)
Definition given (o : option string) : bool :=
  match o with Some s => nonempty s | None => false end.

(** ** JSON values *)

Unset Elimination Schemes.
Inductive json : Type :=
| JNull
| JBool (b : bool)
| JNum (n : Z)
| JStr (s : string)
| JArr (l : list json)
| JObj (l : list (string * json)).
Set Elimination Schemes.

(** Python truthiness of a decoded JSON value. *)
Definition truthy (v : json) : bool :=
  match v with
  | JNull => false
  | JBool b => b
  | JNum n => negb (n =? 0)%Z
  | JStr s => nonempty s
  | JArr l => match l with [] => false | _ :: _ => true end
  | JObj l => match l with [] => false | _ :: _ => true end
  end.

(** [v == s] for a [str] [s]: only a string compares equal to a string. *)
Definition eq_str (v : json) (s : string) : bool :=
  match v with
  | JStr s' => String.eqb s' s
  | _ => false
  end.

(** ** Dicts with an iteration order *)

Fixpoint dict_get {V : Type} (k : string) (d : list (string * V)) : option V :=
  match d with
  | [] => None
  | (k', v) :: d' => if String.eqb k' k then Some v else dict_get k d'
  end.

(** ** Data *)

(** An entry of the issue-type and priority lists: [e['name']], [e['id']]. *)
Record entry : Type := Entry { name : string; id : string }.

(** The project resource: [project_data.get('name')] and
    [project_data.get('issueTypes', [])]. *)
Record project_data : Type :=
  { project_name : option string; issueTypes : list entry }.

(** An issue of the search page: [issue['key']],
    [issue['fields'].get('status', {}).get('name', '')] (absent: [None])
    and the other entries of [issue['fields']]. *)
Record issue : Type :=
  { key : string; status_name : option string; fields : gmap string json }.

(** The [argparse] namespace, defaults filled in. *)
Record args : Type :=
  { projectKey : string;
    summary : string;
    description : string;
    objectName : string;
    issueType : string;
    priority : string;
    assignee : option string;
    outAttachmentName : option string;
    outAttachmentFile : option string;
    errorAttachmentName : option string;
    errorAttachmentFile : option string;
    severity : option string;
    alarmType : option string;
    debug : bool }.

(** The tables of [config.py]. *)
Record config : Type :=
  { custom_field_mappings : list (string * string);
    priority_mapping : list (string * string);
    issue_type_mapping : list (string * string);
    jsm_default_values : list (string * json) }.

(** What [create_issue] posts: the resolved ids, the texts and the custom
    fields; [issue_fields] below is the JSON object built from it. *)
Record issue_data : Type :=
  { d_project : string;
    d_issuetype : string;
    d_summary : string;
    d_description : string;
    d_priority : string;
    d_assignee : option string;
    d_custom : gmap string json }.

Definition adf (text : string) : json :=
  JObj [("type", JStr "doc"); ("version", JNum 1);
        ("content", JArr [JObj [("type", JStr "paragraph");
          ("content", JArr [JObj [("type", JStr "text");
                                  ("text", JStr text)]])]])].

(** [issue_data['fields']] after the optional assignee and
    [.update(custom_fields)]: a custom field wins over a standard one. *)
Definition issue_fields (d : issue_data) : gmap string json :=
  let base : gmap string json :=
    <["priority" := JObj [("id", JStr (d_priority d))]]>
    (<["description" := adf (d_description d)]>
    (<["summary" := JStr (d_summary d)]>
    (<["issuetype" := JObj [("id", JStr (d_issuetype d))]]>
    (<["project" := JObj [("key", JStr (d_project d))]]> ∅)))) in
  let with_assignee : gmap string json :=
    match d_assignee d with
    | Some a => if nonempty a
                then <["assignee" := JObj [("emailAddress", JStr a)]]> base
                else base
    | None => base
    end in
  d_custom d ∪ with_assignee.

(** ** The remote service, the file system and the clock *)

Inductive response (A : Type) : Type :=
| Ok (a : A)
| RequestException (msg : string).
Arguments Ok {A} a.
Arguments RequestException {A} msg.

Record remote : Type :=
  { get_project : string → response project_data;
    get_issuetype : response (list entry);
    get_priority : response (list entry);
    post_search : string → string → response (list issue);
    post_issue : issue_data → response string;
    post_issueLink : string → string → response nat;
    path_exists : string → bool;
    open_error : string → option string;
    post_attachment : string → string → string → response unit;
    post_comment : string → string → response unit;
    now : string }.

(** ** Effects *)

Inductive event : Type :=
| GetProject (project_key : string)
| GetIssueTypes
| GetPriorities
| PostSearch (project_key field_id : string)
| PostIssue (d : issue_data)
| PostIssueLink (inward outward : string)
| PostAttachment (issue_key file_path filename : string)
| PostComment (issue_key comment : string)
| Print (line : string).

Definition io (A : Type) : Type := (list event * A)%type.

Definition ret {A : Type} (a : A) : io A := ([], a).

Definition bind {A B : Type} (m : io A) (k : A → io B) : io B :=
  let r := k (snd m) in (fst m ++ fst r, snd r).

Definition emit (e : event) : io unit := ([e], tt).

Definition print (line : string) : io unit := emit (Print line).

Definition trace {A : Type} (m : io A) : list event := fst m.
Definition value {A : Type} (m : io A) : A := snd m.

Declare Scope io_scope.
Delimit Scope io_scope with io.
Notation "x <- m ;; k" := (bind m (fun x => k))
  (at level 100, m at next level, right associativity) : io_scope.
Notation "m ;; k" := (bind m (fun _ => k))
  (at level 100, right associativity) : io_scope.
Open Scope io_scope.

(** ** class JiraIntegration *)

(** The loop of both lookups:
    [for e in l: if e['name'].lower() == wanted.lower(): return e['id']]. *)
Fixpoint lookup_by_name (wanted : string) (l : list entry) : option string :=
  match l with
  | [] => None
  | e :: l' =>
      if String.eqb (lower (name e)) (lower wanted) then Some (id e)
      else lookup_by_name wanted l'
  end.

Definition get_issue_type_id (R : remote) (project_key issue_type_name : string)
  : io (option string) :=
  emit (GetProject project_key) ;;
  match get_project R project_key with
  | RequestException e =>
      print ("Error getting issue type ID: " +:+ e) ;; ret None
  | Ok project =>
      match lookup_by_name issue_type_name (issueTypes project) with
      | Some i => ret (Some i)
      | None =>
          emit GetIssueTypes ;;
          match get_issuetype R with
          | RequestException e =>
              print ("Error getting issue type ID: " +:+ e) ;; ret None
          | Ok issue_types => ret (lookup_by_name issue_type_name issue_types)
          end
      end
  end.

Definition get_priority_id (R : remote) (priority_name : string)
  : io (option string) :=
  emit GetPriorities ;;
  match get_priority R with
  | RequestException e =>
      print ("Error getting priority ID: " +:+ e) ;; ret None
  | Ok priorities => ret (lookup_by_name priority_name priorities)
  end.

Definition closed_statuses : list string := ["done"; "closed"; "resolved"].

(** [status.lower() in ['done', 'closed', 'resolved']] *)
Definition is_closed (status : string) : bool :=
  existsb (String.eqb (lower status)) closed_statuses.

(** [vtom_value and vtom_value == object_name] *)
Definition vtom_matches (vtom_value : option json) (object_name : string) : bool :=
  match vtom_value with
  | Some v => truthy v && eq_str v object_name
  | None => false
  end.

(** The in-memory filter over [data.get('issues', [])]. *)
Fixpoint filter_issues (vtom_field_id object_name : string) (issues : list issue)
  : option issue :=
  match issues with
  | [] => None
  | i :: rest =>
      if is_closed (default "" (status_name i))
      then filter_issues vtom_field_id object_name rest
      else if vtom_matches (fields i !! vtom_field_id) object_name
      then Some i
      else filter_issues vtom_field_id object_name rest
  end.

Definition search_existing_issue (cfg : config) (R : remote)
    (object_name project_key : string) : io (option issue) :=
  let vtom_field_id := dict_get "vtom_object_name" (custom_field_mappings cfg) in
  if negb (given vtom_field_id) then
    print "Warning: vtom_object_name custom field not configured, skipping existing issue search" ;;
    ret None
  else
    let fid := default "" vtom_field_id in
    print ("Searching for existing issues with VTOM object: " +:+ object_name) ;;
    emit (PostSearch project_key fid) ;;
    match post_search R project_key fid with
    | RequestException e =>
        print ("Error searching for existing issues: " +:+ e) ;; ret None
    | Ok issues =>
        match filter_issues fid object_name issues with
        | Some i =>
            print ("Found existing issue: " +:+ key i
                   +:+ " with matching VTOM object name") ;;
            ret (Some i)
        | None =>
            print "No existing open issue found for this VTOM object" ;;
            ret None
        end
    end.

Definition create_issue (R : remote) (project_key issue_type summary description
    priority : string) (assignee : option string) (custom_fields : gmap string json)
  : io (option string) :=
  issue_type_id <- get_issue_type_id R project_key issue_type ;;
  if negb (given issue_type_id) then
    print ("Error: Issue type '" +:+ issue_type +:+ "' not found in project '"
           +:+ project_key +:+ "'") ;;
    ret None
  else
    priority_id <- get_priority_id R priority ;;
    if negb (given priority_id) then
      print ("Error: Priority '" +:+ priority +:+ "' not found") ;;
      ret None
    else
      let d := {| d_project := project_key;
                  d_issuetype := default "" issue_type_id;
                  d_summary := summary;
                  d_description := description;
                  d_priority := default "" priority_id;
                  d_assignee := assignee;
                  d_custom := custom_fields |} in
      emit (PostIssue d) ;;
      match post_issue R d with
      | Ok k => ret (Some k)
      | RequestException e => print ("Error creating issue: " +:+ e) ;; ret None
      end.

Definition add_attachment (R : remote) (issue_key file_path filename : string)
  : io bool :=
  if negb (path_exists R file_path) then
    print ("Warning: Attachment file " +:+ file_path +:+ " does not exist") ;;
    ret false
  else
    match open_error R file_path with
    | Some e => print ("Error reading file " +:+ file_path +:+ ": " +:+ e) ;; ret false
    | None =>
        emit (PostAttachment issue_key file_path filename) ;;
        match post_attachment R issue_key file_path filename with
        | Ok _ => ret true
        | RequestException e =>
            print ("Error adding attachment: " +:+ e) ;; ret false
        end
    end.

Definition add_comment (R : remote) (issue_key comment : string) : io bool :=
  emit (PostComment issue_key comment) ;;
  match post_comment R issue_key comment with
  | Ok _ => ret true
  | RequestException e => print ("Error adding comment: " +:+ e) ;; ret false
  end.

(** ** main *)

(** [if args.debug:] the listing of issue types and priorities. *)
Definition debug_listing (R : remote) (a : args) : io unit :=
  print "=== DEBUG MODE ===" ;;
  print ("Project: " +:+ projectKey a) ;;
  emit (GetProject (projectKey a)) ;;
  match get_project R (projectKey a) with
  | Ok project =>
      print ("Project name: " +:+ default "Unknown" (project_name project)) ;;
      print "Available issue types:" ;;
      (map (λ t, Print ("  - " +:+ name t +:+ " (ID: " +:+ id t +:+ ")"))
           (issueTypes project), tt)
  | RequestException e => print ("Error getting project info: " +:+ e)
  end ;;
  emit GetPriorities ;;
  match get_priority R with
  | Ok priorities =>
      print "Available priorities:" ;;
      (map (λ p, Print ("  - " +:+ name p +:+ " (ID: " +:+ id p +:+ ")"))
           priorities, tt)
  | RequestException e => print ("Error getting priorities: " +:+ e)
  end ;;
  print "=== END DEBUG ===".

(** [x = dflt; if key and key.lower() in table: x = table[key.lower()]] *)
Definition mapped (table : list (string * string)) (k : option string)
    (dflt : string) : string :=
  if given k then
    match dict_get (lower (default "" k)) table with
    | Some v => v
    | None => dflt
    end
  else dflt.

Definition resolved_priority (cfg : config) (a : args) : string :=
  mapped (priority_mapping cfg) (severity a) (priority a).

Definition resolved_issue_type (cfg : config) (a : args) : string :=
  mapped (issue_type_mapping cfg) (alarmType a) (issueType a).

(** The [custom_fields] dict [main] prepares. *)
Definition custom_fields (cfg : config) (a : args) : gmap string json :=
  match custom_field_mappings cfg with
  | [] => ∅
  | _ :: _ =>
      let cf0 : gmap string json :=
        let vtom_field_id := dict_get "vtom_object_name" (custom_field_mappings cfg) in
        if given vtom_field_id
        then <[default "" vtom_field_id := JStr (objectName a)]> ∅
        else ∅ in
      let cf1 : gmap string json :=
        match jsm_default_values cfg with
        | [] => cf0
        | _ :: _ =>
            foldl (λ (cf : gmap string json) '(field_name, field_id),
                     match dict_get field_name (jsm_default_values cfg) with
                     | Some default_value =>
                         if truthy default_value
                         then <[field_id := default_value]> cf
                         else cf
                     | None => cf
                     end)
                  cf0 (custom_field_mappings cfg)
        end in
      foldl (λ (cf : gmap string json) '(field_name, field_id),
               if String.eqb field_name "vtom_job_name"
               then <[field_id := JStr (objectName a)]> cf
               else cf)
            cf1 (custom_field_mappings cfg)
  end.

Definition linked_summary (a : args) (existing : issue) : string :=
  summary a +:+ " (Related to " +:+ key existing +:+ ")".

Definition linked_description (a : args) (existing : issue) : string :=
  "This issue is related to existing issue " +:+ key existing +:+ nl +:+ nl
  +:+ "VTOM Object: " +:+ objectName a +:+ nl +:+ nl +:+ description a.

(** The [if existing_issue: ... else: ...] block; [None] is [sys.exit(1)],
    [Some issue_key] goes on to the attachments. *)
Definition create_ticket (cfg : config) (R : remote) (a : args)
    (existing_issue : option issue) : io (option string) :=
  match existing_issue with
  | Some existing =>
      print ("Found existing issue: " +:+ key existing) ;;
      result <- create_issue R (projectKey a) (resolved_issue_type cfg a)
                  (linked_summary a existing) (linked_description a existing)
                  (resolved_priority cfg a) (assignee a) (custom_fields cfg a) ;;
      match result with
      | Some issue_key =>
          print ("Created linked issue: " +:+ issue_key) ;;
          emit (PostIssueLink issue_key (key existing)) ;;
          match post_issueLink R issue_key (key existing) with
          | Ok status_code =>
              if (status_code =? 201)%nat
              then print ("Linked " +:+ issue_key +:+ " to " +:+ key existing)
              else ret tt
          | RequestException _ =>
              print "Warning: Could not create link between issues"
          end ;;
          ret (Some issue_key)
      | None => print "Failed to create linked issue" ;; ret None
      end
  | None =>
      result <- create_issue R (projectKey a) (resolved_issue_type cfg a)
                  (summary a) (description a)
                  (resolved_priority cfg a) (assignee a) (custom_fields cfg a) ;;
      match result with
      | Some issue_key =>
          print ("Created new issue: " +:+ issue_key) ;; ret (Some issue_key)
      | None => print "Failed to create issue" ;; ret None
      end
  end.

(** [if file and name: if jira.add_attachment(issue_key, file, name): print(...)] *)
Definition attach (R : remote) (issue_key : string) (file attachment_name : option string)
    (what : string) : io unit :=
  if given file && given attachment_name then
    added <- add_attachment R issue_key (default "" file) (default "" attachment_name) ;;
    if added
    then print ("Added " +:+ what +:+ " log attachment: " +:+ default "" attachment_name)
    else ret tt
  else ret tt.

(** Attachments and the timestamp comment. *)
Definition post_processing (R : remote) (a : args) (issue_key : string) : io unit :=
  attach R issue_key (outAttachmentFile a) (outAttachmentName a) "output" ;;
  attach R issue_key (errorAttachmentFile a) (errorAttachmentName a) "error" ;;
  commented <- add_comment R issue_key ("VTOM alarm processed at " +:+ now R) ;;
  if commented then print "Added timestamp comment" else ret tt.

(** [main]: the trace of the run and its exit code. *)
Definition main (cfg : config) (R : remote) (a : args) : io Z :=
  if debug a then debug_listing R a ;; ret 0%Z
  else
    existing_issue <- search_existing_issue cfg R (objectName a) (projectKey a) ;;
    created <- create_ticket cfg R a existing_issue ;;
    match created with
    | None => ret 1%Z
    | Some issue_key => post_processing R a issue_key ;; ret 0%Z
    end.

(** ** Reading a trace *)

Definition created (t : list event) : list issue_data :=
  omap (λ e, match e with PostIssue d => Some d | _ => None end) t.

Definition links (t : list event) : list (string * string) :=
  omap (λ e, match e with PostIssueLink i o => Some (i, o) | _ => None end) t.

Definition uploads (t : list event) : list (string * string * string) :=
  omap (λ e, match e with PostAttachment k f n => Some (k, f, n) | _ => None end) t.

(** ** Notions the properties are stated with *)

(** A candidate survives the filter: its status is not of the closed family
    and its object-name field equals the alarm's object name. *)
Definition survives (vtom_field_id object_name : string) (i : issue) : bool :=
  negb (is_closed (default "" (status_name i)))
  && vtom_matches (fields i !! vtom_field_id) object_name.

(** An entry whose name equals the wanted one up to case. *)
Definition name_matches (wanted : string) (e : entry) : Prop :=
  lower (name e) = lower wanted.


(** The texts [main] hands to [create_issue], and that call, by search result. *)
Definition ticket_summary (a : args) (existing_issue : option issue) : string :=
  match existing_issue with
  | Some existing => linked_summary a existing
  | None => summary a
  end.

Definition ticket_description (a : args) (existing_issue : option issue) : string :=
  match existing_issue with
  | Some existing => linked_description a existing
  | None => description a
  end.

Definition create_call (cfg : config) (R : remote) (a : args)
    (existing_issue : option issue) : io (option string) :=
  create_issue R (projectKey a) (resolved_issue_type cfg a)
    (ticket_summary a existing_issue) (ticket_description a existing_issue)
    (resolved_priority cfg a) (assignee a) (custom_fields cfg a).

(** The upload [attach] sends, if any. *)
Definition upload_of (R : remote) (issue_key : string)
    (file attachment_name : option string) : list (string * string * string) :=
  if given file && given attachment_name && path_exists R (default "" file)
  then match open_error R (default "" file) with
       | None => [(issue_key, default "" file, default "" attachment_name)]
       | Some _ => []
       end
  else [].

(** The remote with another answer to the search, and to the priority list. *)
Definition with_page (answer : response (list issue)) (R : remote) : remote :=
  {| get_project := get_project R;
     get_issuetype := get_issuetype R;
     get_priority := get_priority R;
     post_search := λ _ _, answer;
     post_issue := post_issue R;
     post_issueLink := post_issueLink R;
     path_exists := path_exists R;
     open_error := open_error R;
     post_attachment := post_attachment R;
     post_comment := post_comment R;
     now := now R |}.

Definition with_priorities (answer : response (list entry)) (R : remote) : remote :=
  {| get_project := get_project R;
     get_issuetype := get_issuetype R;
     get_priority := answer;
     post_search := post_search R;
     post_issue := post_issue R;
     post_issueLink := post_issueLink R;
     path_exists := path_exists R;
     open_error := open_error R;
     post_attachment := post_attachment R;
     post_comment := post_comment R;
     now := now R |}.

(** ** A scenario: object ETL_NIGHTLY in project PROJ *)

Module Scenario.

Definition cfg : config :=
  {| custom_field_mappings :=
       [("vtom_object_name", "customfield_10055");
        ("request_type", "customfield_10010");
        ("affected_services", "customfield_10043")];
     priority_mapping := [("critical", "Highest"); ("high", "High")];
     issue_type_mapping := [("job_failure", "Incident")];
     jsm_default_values :=
       [("request_type", JStr "14"); ("affected_services", JArr [])] |}.

(** The same tables without the object-name field. *)
Definition cfg_unmapped : config :=
  {| custom_field_mappings := [];
     priority_mapping := priority_mapping cfg;
     issue_type_mapping := issue_type_mapping cfg;
     jsm_default_values := jsm_default_values cfg |}.

Definition ticket (k status object_name : string) : issue :=
  {| key := k; status_name := Some status;
     fields := {["customfield_10055" := JStr object_name]} |}.

Definition proj44 : issue := ticket "PROJ-44" "Done" "ETL_NIGHTLY".
Definition proj43 : issue := ticket "PROJ-43" "Open" "etl_nightly".
Definition proj42 : issue := ticket "PROJ-42" "Open" "ETL_NIGHTLY".
Definition proj40 : issue := ticket "PROJ-40" "In Progress" "ETL_NIGHTLY".
Definition proj39 : issue := ticket "PROJ-39" "Open" "".

Definition page : list issue := [proj44; proj43; proj42; proj40; proj39].

Definition jira : remote :=
  {| get_project := λ _,
       Ok {| project_name := Some "Operations";
             issueTypes := [Entry "Task" "10002"; Entry "Incident" "10001"] |};
     get_issuetype := Ok [Entry "incident" "10009"; Entry "Bug" "10004"];
     get_priority :=
       Ok [Entry "Highest" "1"; Entry "High" "2"; Entry "HIGH" "7"];
     post_search := λ _ _, Ok page;
     post_issue := λ _, Ok "PROJ-45";
     post_issueLink := λ _ _, Ok 201;
     path_exists := λ p, String.eqb p "/var/log/etl.out";
     open_error := λ _, None;
     post_attachment := λ _ _ _, Ok tt;
     post_comment := λ _ _, Ok tt;
     now := "2025-01-01 00:00:00" |}.

(** The same service with an empty priority list, with a failing search,
    and with no ticket in the project. *)
Definition jira_no_priority : remote := with_priorities (Ok []) jira.


Definition jira_empty : remote := with_page (Ok []) jira.


Definition alarm : args :=
  {| projectKey := "PROJ";
     summary := "Job failed";
     description := "exit status 3";
     objectName := "ETL_NIGHTLY";
     issueType := "Incident";
     priority := "High";
     assignee := None;
     outAttachmentName := Some "etl.out";
     outAttachmentFile := Some "/var/log/etl.out";
     errorAttachmentName := Some "etl.err";
     errorAttachmentFile := Some "/var/log/etl.err";
     severity := Some "CRITICAL";
     alarmType := None;
     debug := false |}.

(** The same alarm with [--outAttachmentName ""]. *)
Definition alarm_blank_name : args :=
  {| projectKey := projectKey alarm;
     summary := summary alarm;
     description := description alarm;
     objectName := objectName alarm;
     issueType := issueType alarm;
     priority := priority alarm;
     assignee := assignee alarm;
     outAttachmentName := Some "";
     outAttachmentFile := outAttachmentFile alarm;
     errorAttachmentName := errorAttachmentName alarm;
     errorAttachmentFile := errorAttachmentFile alarm;
     severity := severity alarm;
     alarmType := alarmType alarm;
     debug := false |}.

End Scenario.

(** ** More of Jira_CreateTicket.py *)

(** The HTTP requests of a trace, in order, and its comments. *)
Definition is_request (e : event) : bool :=
  match e with Print _ => false | _ => true end.

Definition requests (t : list event) : list event := List.filter is_request t.

Definition comments (t : list event) : list (string * string) :=
  omap (λ e, match e with PostComment k c => Some (k, c) | _ => None end) t.

Definition upload_request (u : string * string * string) : event :=
  match u with (k, f, n) => PostAttachment k f n end.

(** [create_subtask]: the request also names the parent, and the issue type
    is always looked up under the name 'Sub-task'. [main] never calls it; the
    remote's answer to its request is the argument [post]. *)
Record subtask_data : Type :=
  { s_parent : string; s_issue : issue_data }.

Inductive subtask_event : Type :=
| Jira (e : event)
| PostSubtask (s : subtask_data).

(** [issue_data['fields']] of [create_subtask]. *)
Definition subtask_fields (s : subtask_data) : gmap string json :=
  let d := s_issue s in
  let base : gmap string json :=
    <["priority" := JObj [("id", JStr (d_priority d))]]>
    (<["description" := adf (d_description d)]>
    (<["summary" := JStr (d_summary d)]>
    (<["parent" := JObj [("key", JStr (s_parent s))]]>
    (<["issuetype" := JObj [("id", JStr (d_issuetype d))]]>
    (<["project" := JObj [("key", JStr (d_project d))]]> ∅))))) in
  let with_assignee : gmap string json :=
    match d_assignee d with
    | Some a => if nonempty a
                then <["assignee" := JObj [("emailAddress", JStr a)]]> base
                else base
    | None => base
    end in
  d_custom d ∪ with_assignee.

Definition create_subtask (R : remote) (post : subtask_data → response string)
    (parent_key project_key issue_type summary description priority : string)
    (assignee : option string) (custom_fields : gmap string json)
  : list subtask_event * option string :=
  let type_lookup := get_issue_type_id R project_key "Sub-task" in
  let issue_type_id := value type_lookup in
  if negb (given issue_type_id) then
    (Jira <$> (trace type_lookup
               ++ [Print ("Error: Sub-task issue type not found in project '"
                          +:+ project_key +:+ "'")]),
     None)
  else
    let priority_lookup := get_priority_id R priority in
    let priority_id := value priority_lookup in
    if negb (given priority_id) then
      (Jira <$> (trace type_lookup ++ trace priority_lookup
                 ++ [Print ("Error: Priority '" +:+ priority +:+ "' not found")]),
       None)
    else
      let s := {| s_parent := parent_key;
                  s_issue := {| d_project := project_key;
                                d_issuetype := default "" issue_type_id;
                                d_summary := summary;
                                d_description := description;
                                d_priority := default "" priority_id;
                                d_assignee := assignee;
                                d_custom := custom_fields |} |} in
      match post s with
      | Ok k =>
          ((Jira <$> (trace type_lookup ++ trace priority_lookup))
           ++ [PostSubtask s], Some k)
      | RequestException e =>
          ((Jira <$> (trace type_lookup ++ trace priority_lookup))
           ++ [PostSubtask s; Jira (Print ("Error creating subtask: " +:+ e))],
           None)
      end.

Definition subtasks (t : list subtask_event) : list subtask_data :=
  omap (λ e, match e with PostSubtask s => Some s | Jira _ => None end) t.

(** A ticket that is open and holds the object name: no status name, or one
    outside the closed family, and the field equal to a non-empty name. *)
Definition open_match (vtom_field_id object_name : string) (i : issue) : Prop :=
  (∀ s, status_name i = Some s →
        lower s ≠ "done" ∧ lower s ≠ "closed" ∧ lower s ≠ "resolved")
  ∧ fields i !! vtom_field_id = Some (JStr object_name)
  ∧ object_name ≠ "".

(** ** More cases of the scenario *)

Module Cases.

(** The alarm of the scenario under [--debug]. *)
Definition alarm_debug : args :=
  {| projectKey := projectKey Scenario.alarm;
     summary := summary Scenario.alarm;
     description := description Scenario.alarm;
     objectName := objectName Scenario.alarm;
     issueType := issueType Scenario.alarm;
     priority := priority Scenario.alarm;
     assignee := assignee Scenario.alarm;
     outAttachmentName := outAttachmentName Scenario.alarm;
     outAttachmentFile := outAttachmentFile Scenario.alarm;
     errorAttachmentName := errorAttachmentName Scenario.alarm;
     errorAttachmentFile := errorAttachmentFile Scenario.alarm;
     severity := severity Scenario.alarm;
     alarmType := alarmType Scenario.alarm;
     debug := true |}.

(** The alarm of the scenario with an empty object name, and with the
    severity in another case. *)
Definition alarm_no_object : args :=
  {| projectKey := projectKey Scenario.alarm;
     summary := summary Scenario.alarm;
     description := description Scenario.alarm;
     objectName := "";
     issueType := issueType Scenario.alarm;
     priority := priority Scenario.alarm;
     assignee := assignee Scenario.alarm;
     outAttachmentName := outAttachmentName Scenario.alarm;
     outAttachmentFile := outAttachmentFile Scenario.alarm;
     errorAttachmentName := errorAttachmentName Scenario.alarm;
     errorAttachmentFile := errorAttachmentFile Scenario.alarm;
     severity := severity Scenario.alarm;
     alarmType := alarmType Scenario.alarm;
     debug := false |}.


(** The service of the scenario when links, uploads and comments all fail. *)
Definition jira_flaky : remote :=
  {| get_project := get_project Scenario.jira;
     get_issuetype := get_issuetype Scenario.jira;
     get_priority := get_priority Scenario.jira;
     post_search := post_search Scenario.jira;
     post_issue := post_issue Scenario.jira;
     post_issueLink := λ _ _, RequestException "timeout";
     path_exists := λ _, true;
     open_error := λ _, Some "Permission denied";
     post_attachment := λ _ _ _, RequestException "413 Payload Too Large";
     post_comment := λ _ _, RequestException "403 Forbidden";
     now := now Scenario.jira |}.

(** A configuration that also maps [vtom_job_name], to the field of the
    request type. *)
Definition cfg_job_name : config :=
  {| custom_field_mappings :=
       [("request_type", "customfield_10010");
        ("vtom_job_name", "customfield_10010");
        ("organizations", "customfield_10002")];
     priority_mapping := [("critical", "Highest"); ("High", "High")];
     issue_type_mapping := [];
     jsm_default_values :=
       [("request_type", JStr "14"); ("organizations", JArr [])] |}.

(** The service of the scenario when the project lists no issue type and
    every path exists. *)
Definition jira_bare_project : remote :=
  {| get_project := λ _, Ok {| project_name := None; issueTypes := [] |};
     get_issuetype := get_issuetype Scenario.jira;
     get_priority := get_priority Scenario.jira;
     post_search := post_search Scenario.jira;
     post_issue := post_issue Scenario.jira;
     post_issueLink := post_issueLink Scenario.jira;
     path_exists := λ _, true;
     open_error := open_error Scenario.jira;
     post_attachment := post_attachment Scenario.jira;
     post_comment := post_comment Scenario.jira;
     now := now Scenario.jira |}.

(** A configuration that maps [vtom_job_name] to the standard field
    [summary]. *)
Definition cfg_summary : config :=
  {| custom_field_mappings := [("vtom_job_name", "summary")];
     priority_mapping := [];
     issue_type_mapping := [];
     jsm_default_values := [] |}.

End Cases.

(** * setup_config.py: the configuration wizard

    [class JiraConfigSetup]. The terminal is a list of lines still to be
    read, one per [input()], and a list of what was written. A step that
    raises, by the [EOFError] of [input()] past the last line or by the
    [KeyError] of [self.config[...]], returns [None]. The answer of a GET is
    an argument of the method that sends it. [str.strip],
    [int(...)], [in] on strings and [str.startswith] are given on ASCII
    text. *)

Module Setup.

(** ** Built-ins *)

(** The ASCII characters [str.strip] removes. *)
Definition is_space (c : ascii) : bool :=
  let n := nat_of_ascii c in
  ((9 <=? n)%nat && (n <=? 13)%nat) || ((28 <=? n)%nat && (n <=? 32)%nat).

Fixpoint lstrip (s : string) : string :=
  match s with
  | EmptyString => EmptyString
  | String c s' => if is_space c then lstrip s' else s
  end.

Fixpoint rstrip (s : string) : string :=
  match s with
  | EmptyString => EmptyString
  | String c s' =>
      match rstrip s' with
      | EmptyString => if is_space c then EmptyString else String c EmptyString
      | r => String c r
      end
  end.

Definition strip (s : string) : string := rstrip (lstrip s).

Definition digit (c : ascii) : option Z :=
  let n := nat_of_ascii c in
  if (48 <=? n)%nat && (n <=? 57)%nat then Some (Z.of_nat (n - 48)) else None.

(** The digits of [int(...)]: decimal digits, single underscores between
    them. [after_digit] tells whether the last character read was a digit. *)
Fixpoint int_digits (acc : Z) (after_digit : bool) (s : string) : option Z :=
  match s with
  | EmptyString => if after_digit then Some acc else None
  | String c s' =>
      match digit c with
      | Some d => int_digits (10 * acc + d) true s'
      | None =>
          if Ascii.eqb c "_" && after_digit then int_digits acc false s' else None
      end
  end.

(** [int(s)]; [None] is [ValueError]. *)
Definition int (s : string) : option Z :=
  match strip s with
  | String "+" s' => int_digits 0 false s'
  | String "-" s' => Z.opp <$> int_digits 0 false s'
  | s' => int_digits 0 false s'
  end.

(** [needle in hay] *)
Fixpoint contains (needle hay : string) : bool :=
  String.prefix needle hay
  || match hay with
     | EmptyString => false
     | String _ hay' => contains needle hay'
     end.

(** [d[k] = v] on a dict with its insertion order. *)
Fixpoint dict_set {V : Type} (k : string) (v : V) (d : list (string * V))
  : list (string * V) :=
  match d with
  | [] => [(k, v)]
  | (k', v') :: d' =>
      if String.eqb k' k then (k, v) :: d' else (k', v') :: dict_set k v d'
  end.

(** ** The terminal *)

Inductive console : Type :=
| Say (line : string)
| Ask (prompt : string).

Definition wizard (A : Type) : Type :=
  list string → list console * option (A * list string).

Definition ret {A : Type} (a : A) : wizard A := λ stdin, ([], Some (a, stdin)).

Definition bind {A B : Type} (m : wizard A) (k : A → wizard B) : wizard B :=
  λ stdin,
    match m stdin with
    | (out, Some (a, rest)) => let r := k a rest in (out ++ fst r, snd r)
    | (out, None) => (out, None)
    end.

Definition say (line : string) : wizard unit := λ stdin, ([Say line], Some (tt, stdin)).

Definition input (prompt : string) : wizard string :=
  λ stdin,
    match stdin with
    | [] => ([Ask prompt], None)
    | line :: rest => ([Ask prompt], Some (line, rest))
    end.

Declare Scope wizard_scope.
Delimit Scope wizard_scope with wizard.
Notation "x <- m ;; k" := (bind m (fun x => k))
  (at level 100, m at next level, right associativity) : wizard_scope.
Notation "m ;; k" := (bind m (fun _ => k))
  (at level 100, right associativity) : wizard_scope.
Local Open Scope wizard_scope.

(** What a wizard step returns, and what is left to read. *)
Definition answer {A : Type} (r : list console * option (A * list string)) : option A :=
  fst <$> snd r.

Definition unread {A : Type} (r : list console * option (A * list string))
  : option (list string) :=
  snd <$> snd r.

(** ** Prompts *)

Definition print_step (step : nat) (text : string) : wizard unit :=
  say (nl +:+ "[Step " +:+ pretty step +:+ "] " +:+ text) ;;
  say (String.concat "" (replicate 70 "-")).

Definition get_input (prompt : string) (default_value : option string)
  : wizard string :=
  if given default_value then
    line <- input (prompt +:+ " [" +:+ default "" default_value +:+ "]: ") ;;
    let user_input := strip line in
    ret (if nonempty user_input then user_input else default "" default_value)
  else
    line <- input (prompt +:+ ": ") ;;
    ret (strip line).

(** The [while True] of [get_choice]: one line per turn. *)
Fixpoint choice_loop (options : list (string * string)) (allow_none : bool)
    (stdin : list string) : list console * option (option string * list string) :=
  match stdin with
  | [] => ([Ask (nl +:+ "Enter your choice (number): ")], None)
  | line :: rest =>
      let asked := Ask (nl +:+ "Enter your choice (number): ") in
      match int (strip line) with
      | Some choice_num =>
          if allow_none && (choice_num =? 0)%Z then ([asked], Some (None, rest))
          else if (1 <=? choice_num)%Z && (choice_num <=? Z.of_nat (length options))%Z
          then
            match options !! (Z.to_nat choice_num - 1)%nat with
            | Some (selected_id, selected_name) =>
                ([asked; Say ("Selected: " +:+ selected_name)],
                 Some (Some selected_id, rest))
            | None => ([asked], None)
            end
          else
            let r := choice_loop options allow_none rest in
            (asked
             :: Say ("Invalid choice. Please enter a number between "
                     +:+ (if allow_none then "0" else "1") +:+ " and "
                     +:+ pretty (length options))
             :: fst r, snd r)
      | None =>
          let r := choice_loop options allow_none rest in
          (asked :: Say "Invalid input. Please enter a number." :: fst r, snd r)
      end
  end.

Definition get_choice (prompt : string) (options : list (string * string))
    (allow_none : bool) : wizard (option string) :=
  λ stdin,
    let listing :=
      Say (nl +:+ prompt)
      :: imap (λ idx '(item_id, item_name),
                 Say ("  " +:+ pretty (S idx) +:+ ". " +:+ item_name
                      +:+ " (ID: " +:+ item_id +:+ ")")) options
      ++ (if allow_none then [Say "  0. None / Skip"] else []) in
    let r := choice_loop options allow_none stdin in
    (listing ++ fst r, snd r).

(** ** Discovery *)

Definition get_issue_types (resp : response project_data)
  : list console * list (string * string) :=
  match resp with
  | Ok project => ([], (λ it, (name it, name it)) <$> issueTypes project)
  | RequestException e => ([Say ("Error fetching issue types: " +:+ e)], [])
  end.

Definition get_priorities (resp : response (list entry))
  : list console * list (string * string) :=
  match resp with
  | Ok priorities => ([], (λ p, (name p, name p)) <$> priorities)
  | RequestException e => ([Say ("Error fetching priorities: " +:+ e)], [])
  end.

(** The create metadata: per project its issue types, per issue type its
    name and [it.get('fields', {})], per field [field_info.get('name')]. *)
Record meta_issuetype : Type :=
  { it_name : string; it_fields : list (string * option string) }.

Record meta_project : Type := { issuetypes : list meta_issuetype }.

Definition collect_fields (custom_fields : list (string * string))
    (fields : list (string * option string)) : list (string * string) :=
  foldl (λ cf '(field_id, field_info),
           if String.prefix "customfield_" field_id
           then dict_set field_id (default "Unknown" field_info) cf
           else cf)
        custom_fields fields.

(** [issue_type] is what [self.config['default_issue_type']] holds: a name,
    or [None], which equals no name. *)
Definition get_custom_fields (resp : response (list meta_project))
    (issue_type : option string) : list console * list (string * string) :=
  match resp with
  | Ok projects =>
      ([], foldl (λ cf project,
                    foldl (λ cf it,
                             if bool_decide (Some (it_name it) = issue_type)
                             then collect_fields cf (it_fields it)
                             else cf)
                          cf (issuetypes project))
                 [] projects)
  | RequestException e => ([Say ("Error fetching custom fields: " +:+ e)], [])
  end.

Fixpoint find_custom_field_by_name (custom_fields : list (string * string))
    (search_terms : list string) : option string :=
  match custom_fields with
  | [] => None
  | (field_id, field_name) :: rest =>
      if existsb (λ term, contains (lower term) (lower field_name)) search_terms
      then Some field_id
      else find_custom_field_by_name rest search_terms
  end.


(** What one line answers to [get_choice]: an option, [None / Skip], or
    nothing when it is no number or a number out of range. *)
Definition selects (options : list (string * string)) (allow_none : bool)
    (line : string) : option (option string) :=
  match int (strip line) with
  | Some 0%Z =>
      if allow_none then Some None else None
  | Some (Z.pos n) => Some <$> (fst <$> options !! (Pos.to_nat n - 1)%nat)
  | _ => None
  end.

(** ** The steps that fill [self.config] *)

(** What a method printed before it returned, as a wizard step. *)
Definition said {A : Type} (r : list console * A) : wizard A :=
  λ stdin, (fst r, Some (snd r, stdin)).

(** [self.config[k]]; a missing key raises [KeyError]. *)
Definition config_item (config : gmap string (option string)) (k : string)
  : wizard (option string) :=
  λ stdin,
    match config !! k with
    | Some v => ([], Some (v, stdin))
    | None => ([], None)
    end.

(** [f"{v}"] of an [Optional[str]]. *)
Definition shown (v : option string) : string := default "None" v.

Definition setup_issue_type (resp : response project_data)
    (config : gmap string (option string)) : wizard (gmap string (option string)) :=
  print_step 3 "Issue Type Selection" ;;
  say (nl +:+ "Fetching available issue types...") ;;
  _ <- config_item config "default_project_key" ;;
  issue_types <- said (get_issue_types resp) ;;
  match issue_types with
  | [] =>
      say "No issue types found." ;;
      ret (<["default_issue_type" := Some "Incident"]> config)
  | _ :: _ =>
      issue_type <- get_choice "Select the default issue type for VTOM alarms:"
                      issue_types false ;;
      say (nl +:+ "✓ Issue type selected: " +:+ shown issue_type) ;;
      ret (<["default_issue_type" := issue_type]> config)
  end.

Definition setup_priority (resp : response (list entry))
    (config : gmap string (option string)) : wizard (gmap string (option string)) :=
  print_step 4 "Priority Selection" ;;
  say (nl +:+ "Fetching available priorities...") ;;
  priorities <- said (get_priorities resp) ;;
  match priorities with
  | [] =>
      say "No priorities found." ;;
      ret (<["default_priority" := Some "High"]> config)
  | _ :: _ =>
      priority <- get_choice "Select the default priority for VTOM alarms:"
                    priorities false ;;
      say (nl +:+ "✓ Priority selected: " +:+ shown priority) ;;
      ret (<["default_priority" := priority]> config)
  end.

(** [config[k] = find_custom_field_by_name(...)], with the line printed when
    a field is found and the one printed when none is. *)
Definition store_found (custom_fields : list (string * string))
    (search_terms : list string) (k found_line : string) (missing_line : option string)
    (config : gmap string (option string)) : wizard (gmap string (option string)) :=
  let field := find_custom_field_by_name custom_fields search_terms in
  if given field then
    say (found_line +:+ shown field) ;;
    ret (<[k := field]> config)
  else
    match missing_line with
    | Some line => say line
    | None => ret tt
    end ;;
    ret (<[k := None]> config).

Definition setup_custom_fields (resp : response (list meta_project))
    (config : gmap string (option string)) : wizard (gmap string (option string)) :=
  print_step 5 "Custom Fields Configuration" ;;
  say (nl +:+ "Fetching custom fields...") ;;
  _ <- config_item config "default_project_key" ;;
  issue_type <- config_item config "default_issue_type" ;;
  custom_fields <- said (get_custom_fields resp issue_type) ;;
  match custom_fields with
  | [] => say "No custom fields found." ;; ret config
  | _ :: _ =>
      say (nl +:+ "Found " +:+ pretty (length custom_fields) +:+ " custom fields") ;;
      say (nl +:+ "--- VTOM Object Name Field ---") ;;
      say "This field is used to track VTOM objects and detect duplicate issues." ;;
      let suggested := find_custom_field_by_name custom_fields ["vtom"; "object"; "name"] in
      vtom_field <-
        (if given suggested then
           say ("Suggested field: "
                +:+ default "" (dict_get (default "" suggested) custom_fields)
                +:+ " (" +:+ default "" suggested +:+ ")") ;;
           use_suggested <- get_input "Use this field? (y/n)" (Some "y") ;;
           ret (if String.eqb (lower use_suggested) "y" then suggested else None)
         else ret suggested) ;;
      vtom_field <-
        (if given vtom_field then ret vtom_field
         else
           get_choice "Select the field for VTOM object name:"
             ((λ '(fid, fname), (fid, fname +:+ " (" +:+ fid +:+ ")")) <$> custom_fields)
             true) ;;
      let config := <["vtom_object_name_field" := vtom_field]> config in
      say (nl +:+ "--- Request Type Field (Jira Service Management) ---") ;;
      say "This field is required for JSM to categorize incidents." ;;
      config <- store_found custom_fields ["request"; "type"] "request_type_field"
                  "Found Request Type field: "
                  (Some "Request Type field not found. You may need to configure it manually.")
                  config ;;
      say (nl +:+ "--- Affected Services Field (Optional) ---") ;;
      config <- store_found custom_fields ["affected"; "service"; "services"]
                  "affected_services_field" "Found Affected Services field: " None
                  config ;;
      say (nl +:+ "--- Organizations Field (Optional) ---") ;;
      store_found custom_fields ["organization"; "organisations"]
        "organizations_field" "Found Organizations field: " None config
  end.

End Setup.

(** ** A run of the wizard *)

Module WizardCase.

Definition createmeta : list Setup.meta_project :=
  [{| Setup.issuetypes :=
        [{| Setup.it_name := "Incident";
            Setup.it_fields :=
              [("summary", Some "Summary");
               ("customfield_10010", Some "Request Type");
               ("customfield_10055", Some "VTOM Object");
               ("customfield_10002", Some "Organizations")] |};
         {| Setup.it_name := "Task";
            Setup.it_fields := [("customfield_10077", Some "Team")] |}] |}].

(** [self.config] after steps 2 and 3. *)
Definition config3 : gmap string (option string) :=
  <["default_issue_type" := Some "Incident"]>
    {["default_project_key" := Some "PROJ"]}.

(** [self.config] after step 5, when the suggestion is declined and the
    second field is chosen. *)
Definition config5 : gmap string (option string) :=
  <["organizations_field" := Some "customfield_10002"]>
    (<["affected_services_field" := None]>
       (<["request_type_field" := Some "customfield_10010"]>
          (<["vtom_object_name_field" := Some "customfield_10055"]> config3))).

End WizardCase.

(** * Properties *)

(** ** The writer monad *)

Lemma trace_bind {A B : Type} (m : io A) (k : A → io B) :
  trace (bind m k) = trace m ++ trace (k (value m)).
Proof. reflexivity. Qed.

Lemma value_bind {A B : Type} (m : io A) (k : A → io B) :
  value (bind m k) = value (k (value m)).
Proof. reflexivity. Qed.

Lemma created_app (t1 t2 : list event) :
  created (t1 ++ t2) = created t1 ++ created t2.
Proof. apply omap_app. Qed.

Lemma links_app (t1 t2 : list event) : links (t1 ++ t2) = links t1 ++ links t2.
Proof. apply omap_app. Qed.

Lemma uploads_app (t1 t2 : list event) :
  uploads (t1 ++ t2) = uploads t1 ++ uploads t2.
Proof. apply omap_app. Qed.

(** A trace made of printed lines holds no request. *)
Lemma created_prints {A : Type} (f : A → string) (l : list A) :
  created (map (λ x, Print (f x)) l) = [].
Proof. induction l as [|x l IH]; [reflexivity | exact IH]. Qed.

Lemma links_prints {A : Type} (f : A → string) (l : list A) :
  links (map (λ x, Print (f x)) l) = [].
Proof. induction l as [|x l IH]; [reflexivity | exact IH]. Qed.

Lemma uploads_prints {A : Type} (f : A → string) (l : list A) :
  uploads (map (λ x, Print (f x)) l) = [].
Proof. induction l as [|x l IH]; [reflexivity | exact IH]. Qed.

(** ** Strings and truthiness *)

Lemma eqb_true (s1 s2 : string) : String.eqb s1 s2 = true ↔ s1 = s2.
Proof. apply String.eqb_eq. Qed.

Lemma eqb_false (s1 s2 : string) : String.eqb s1 s2 = false ↔ s1 ≠ s2.
Proof. apply String.eqb_neq. Qed.

Lemma given_Some (o : option string) :
  given o = true ↔ ∃ s, o = Some s ∧ nonempty s = true.
Proof.
  destruct o as [s|]; simpl; split.
  - intros H. exists s. split; [reflexivity | exact H].
  - intros (s' & [= <-] & H). exact H.
  - discriminate.
  - intros (s' & [=] & _).
Qed.

Lemma nonempty_false (s : string) : nonempty s = false ↔ s = "".
Proof. destruct s; simpl; split; congruence. Qed.

(** The value [vtom_value and vtom_value == object_name] accepts: a
    non-empty string equal to the object name, and nothing else. *)
Lemma vtom_matches_true (v : option json) (object_name : string) :
  vtom_matches v object_name = true ↔
  v = Some (JStr object_name) ∧ object_name ≠ "".
Proof.
  unfold vtom_matches. split.
  - destruct v as [[| b | n | s | l | l]|]; simpl;
      rewrite ?andb_false_r; try discriminate.
    intros [Hs He%eqb_true]%andb_true_iff. subst s. split; [reflexivity|].
    intros ->. discriminate.
  - intros [-> Hne]. simpl. rewrite String.eqb_refl, andb_true_r.
    destruct object_name; [congruence | reflexivity].
Qed.

Lemma is_closed_true (status : string) :
  is_closed status = true ↔
  lower status = "done" ∨ lower status = "closed" ∨ lower status = "resolved".
Proof.
  unfold is_closed, closed_statuses.
  change (existsb ?f [?a; ?b; ?c]) with (f a || (f b || (f c || false))).
  rewrite orb_false_r, !orb_true_iff, !eqb_true. tauto.
Qed.

(** ** The dedup filter *)

Lemma filter_issues_skip (fid obj : string) (i : issue) (rest : list issue) :
  survives fid obj i = false →
  filter_issues fid obj (i :: rest) = filter_issues fid obj rest.
Proof.
  unfold survives. simpl.
  destruct (is_closed _); [reflexivity|]. simpl. intros ->. reflexivity.
Qed.

Lemma filter_issues_take (fid obj : string) (i : issue) (rest : list issue) :
  survives fid obj i = true → filter_issues fid obj (i :: rest) = Some i.
Proof.
  unfold survives. simpl.
  destruct (is_closed _); [discriminate|]. simpl. intros ->. reflexivity.
Qed.

(** The filter returns the first survivor in page order, whatever follows. *)
Lemma filter_issues_first (fid obj : string) (newer older : list issue) (i : issue) :
  Forall (λ j, survives fid obj j = false) newer →
  survives fid obj i = true →
  filter_issues fid obj (newer ++ i :: older) = Some i.
Proof.
  intros Hnewer Hi. induction Hnewer as [|j newer Hj _ IH].
  - apply filter_issues_take, Hi.
  - rewrite <- app_comm_cons, filter_issues_skip by exact Hj. exact IH.
Qed.

Lemma filter_issues_Some (fid obj : string) (issues : list issue) (i : issue) :
  filter_issues fid obj issues = Some i →
  ∃ newer older, issues = newer ++ i :: older
    ∧ Forall (λ j, survives fid obj j = false) newer
    ∧ survives fid obj i = true.
Proof.
  induction issues as [|j rest IH]; [discriminate|].
  destruct (survives fid obj j) eqn:Hj.
  - rewrite filter_issues_take by exact Hj. intros [= <-].
    exists [], rest. split; [reflexivity|]. split; [constructor | exact Hj].
  - rewrite filter_issues_skip by exact Hj. intros H.
    destruct (IH H) as (newer & older & -> & Hn & Hi).
    exists (j :: newer), older. split; [reflexivity|].
    split; [constructor; assumption | exact Hi].
Qed.

Lemma filter_issues_None (fid obj : string) (issues : list issue) :
  filter_issues fid obj issues = None ↔
  Forall (λ j, survives fid obj j = false) issues.
Proof.
  induction issues as [|j rest IH].
  - split; [constructor | reflexivity].
  - destruct (survives fid obj j) eqn:Hj.
    + rewrite filter_issues_take by exact Hj. split; [discriminate|].
      intros H. inversion H; congruence.
    + rewrite filter_issues_skip by exact Hj. rewrite IH. split.
      * intros H. constructor; assumption.
      * intros H. inversion H; assumption.
Qed.

(** What [search_existing_issue] returns. *)
Lemma search_existing_issue_value (cfg : config) (R : remote) (obj pk : string) :
  value (search_existing_issue cfg R obj pk) =
  match dict_get "vtom_object_name" (custom_field_mappings cfg) with
  | Some fid =>
      if nonempty fid then
        match post_search R pk fid with
        | Ok issues => filter_issues fid obj issues
        | RequestException _ => None
        end
      else None
  | None => None
  end.
Proof.
  unfold search_existing_issue.
  destruct (dict_get _ _) as [fid|]; [|reflexivity].
  simpl. destruct (nonempty fid); [|reflexivity]. simpl.
  destruct (post_search R pk fid) as [issues|e]; [|reflexivity].
  destruct (filter_issues fid obj issues); reflexivity.
Qed.

(** A returned candidate is the first survivor of the page. *)
Lemma search_existing_issue_Some (cfg : config) (R : remote) (obj pk : string)
    (i : issue) :
  value (search_existing_issue cfg R obj pk) = Some i →
  ∃ fid newer older,
    dict_get "vtom_object_name" (custom_field_mappings cfg) = Some fid
    ∧ nonempty fid = true
    ∧ post_search R pk fid = Ok (newer ++ i :: older)
    ∧ Forall (λ j, survives fid obj j = false) newer
    ∧ survives fid obj i = true.
Proof.
  rewrite search_existing_issue_value.
  destruct (dict_get _ _) as [fid|]; [|discriminate].
  destruct (nonempty fid) eqn:Hfid; [|discriminate].
  destruct (post_search R pk fid) as [issues|e] eqn:Hpage; [|discriminate].
  intros (newer & older & -> & Hn & Hi)%filter_issues_Some.
  exists fid, newer, older. auto.
Qed.

(** ** Closed tickets, exact names, empty fields *)

(** The field of a returned candidate: the alarm's object name, not empty. *)
Lemma selected_field (cfg : config) (R : remote) (obj pk : string) (i : issue)
    (fid : string) :
  dict_get "vtom_object_name" (custom_field_mappings cfg) = Some fid →
  value (search_existing_issue cfg R obj pk) = Some i →
  fields i !! fid = Some (JStr obj) ∧ obj ≠ "".
Proof.
  intros Hfid (fid' & _ & _ & Hfid' & _ & _ & _ & Hi)%search_existing_issue_Some.
  assert (fid' = fid) as -> by congruence.
  apply andb_true_iff in Hi as [_ Hv%vtom_matches_true]. exact Hv.
Qed.

(** C3. A candidate whose status name is, up to case, "done", "closed" or
    "resolved" is skipped by the filter and is never the issue
    [search_existing_issue] returns, whatever the alarm. *)
Theorem closed_ticket_never_candidate (cfg : config) (R : remote)
    (obj pk : string) (i : issue) (s : string) :
  status_name i = Some s →
  lower s = "done" ∨ lower s = "closed" ∨ lower s = "resolved" →
  (∀ fid rest, filter_issues fid obj (i :: rest) = filter_issues fid obj rest)
  ∧ value (search_existing_issue cfg R obj pk) ≠ Some i.
Proof.
  intros Hs Hclosed%is_closed_true.
  assert (Hdead : ∀ fid, survives fid obj i = false).
  { intros fid. unfold survives. rewrite Hs. simpl. rewrite Hclosed. reflexivity. }
  split.
  - intros fid rest. apply filter_issues_skip, Hdead.
  - intros (fid & _ & _ & _ & _ & _ & _ & Hi)%search_existing_issue_Some.
    rewrite Hdead in Hi. discriminate.
Qed.

Lemma closed_ticket_never_candidate_witness :
  (∀ fid rest, filter_issues fid "ETL_NIGHTLY" (Scenario.proj44 :: rest)
               = filter_issues fid "ETL_NIGHTLY" rest)
  ∧ value (search_existing_issue Scenario.cfg Scenario.jira "ETL_NIGHTLY" "PROJ")
    ≠ Some Scenario.proj44.
Proof.
  apply (closed_ticket_never_candidate Scenario.cfg Scenario.jira
           "ETL_NIGHTLY" "PROJ" Scenario.proj44 "Done").
  - reflexivity.
  - left. reflexivity.
Defined.

(** C4. The issue [search_existing_issue] returns holds, in the object-name
    custom field, exactly the alarm's object name (string equality, case
    included); a returned candidate holding "Job_A" is never the answer to
    an alarm for "job_a". *)
Theorem object_name_match_is_exact (cfg : config) (R : remote)
    (obj pk : string) (i : issue) (fid : string) :
  dict_get "vtom_object_name" (custom_field_mappings cfg) = Some fid →
  value (search_existing_issue cfg R obj pk) = Some i →
  fields i !! fid = Some (JStr obj)
  ∧ (fields i !! fid = Some (JStr "Job_A") → obj ≠ "job_a").
Proof.
  intros Hfid Hsel.
  destruct (selected_field cfg R obj pk i fid Hfid Hsel) as [Hv _].
  split; [exact Hv|].
  intros Hjob ->. rewrite Hv in Hjob. discriminate.
Qed.

Lemma object_name_match_is_exact_witness :
  fields Scenario.proj42 !! "customfield_10055" = Some (JStr "ETL_NIGHTLY")
  ∧ (fields Scenario.proj42 !! "customfield_10055" = Some (JStr "Job_A")
     → "ETL_NIGHTLY" ≠ "job_a").
Proof.
  apply (object_name_match_is_exact Scenario.cfg Scenario.jira
           "ETL_NIGHTLY" "PROJ" Scenario.proj42 "customfield_10055").
  - reflexivity.
  - vm_compute. reflexivity.
Defined.

(** C10. A candidate whose object-name custom field is absent, null or the
    empty string is never the issue [search_existing_issue] returns, also
    for an alarm whose object name is the empty string. *)
Theorem empty_field_never_candidate (cfg : config) (R : remote)
    (obj pk : string) (i : issue) (fid : string) :
  dict_get "vtom_object_name" (custom_field_mappings cfg) = Some fid →
  fields i !! fid = None ∨ fields i !! fid = Some JNull
    ∨ fields i !! fid = Some (JStr "") →
  value (search_existing_issue cfg R obj pk) ≠ Some i
  ∧ value (search_existing_issue cfg R "" pk) ≠ Some i.
Proof.
  intros Hfid Hempty.
  assert (Hno : ∀ o, value (search_existing_issue cfg R o pk) ≠ Some i).
  { intros o Hsel.
    destruct (selected_field cfg R o pk i fid Hfid Hsel) as [Hv Hne].
    rewrite Hv in Hempty.
    destruct Hempty as [[=] | [[=] | [= Ho]]]. exact (Hne Ho). }
  split; apply Hno.
Qed.

Lemma empty_field_never_candidate_witness :
  value (search_existing_issue Scenario.cfg Scenario.jira "ETL_NIGHTLY" "PROJ")
    ≠ Some Scenario.proj39
  ∧ value (search_existing_issue Scenario.cfg Scenario.jira "" "PROJ")
    ≠ Some Scenario.proj39.
Proof.
  apply (empty_field_never_candidate Scenario.cfg Scenario.jira
           "ETL_NIGHTLY" "PROJ" Scenario.proj39 "customfield_10055").
  - reflexivity.
  - right. right. reflexivity.
Defined.

(** ** The lookups and [create_issue] *)

Lemma get_priority_id_value (R : remote) (n : string) :
  value (get_priority_id R n) =
  match get_priority R with
  | Ok priorities => lookup_by_name n priorities
  | RequestException _ => None
  end.
Proof. unfold get_priority_id. destruct (get_priority R); reflexivity. Qed.

Lemma get_issue_type_id_value (R : remote) (pk n : string) :
  value (get_issue_type_id R pk n) =
  match get_project R pk with
  | Ok project =>
      match lookup_by_name n (issueTypes project) with
      | Some i => Some i
      | None =>
          match get_issuetype R with
          | Ok issue_types => lookup_by_name n issue_types
          | RequestException _ => None
          end
      end
  | RequestException _ => None
  end.
Proof.
  unfold get_issue_type_id. destruct (get_project R pk) as [p|e]; [|reflexivity].
  simpl. destruct (lookup_by_name n (issueTypes p)); [reflexivity|].
  destruct (get_issuetype R); reflexivity.
Qed.

(** Neither lookup writes anything. *)
Lemma get_priority_id_reads (R : remote) (n : string) :
  created (trace (get_priority_id R n)) = []
  ∧ links (trace (get_priority_id R n)) = []
  ∧ uploads (trace (get_priority_id R n)) = [].
Proof. unfold get_priority_id. destruct (get_priority R); repeat split. Qed.

Lemma get_issue_type_id_reads (R : remote) (pk n : string) :
  created (trace (get_issue_type_id R pk n)) = []
  ∧ links (trace (get_issue_type_id R pk n)) = []
  ∧ uploads (trace (get_issue_type_id R pk n)) = [].
Proof.
  unfold get_issue_type_id. destruct (get_project R pk) as [p|e]; [|repeat split].
  simpl. destruct (lookup_by_name n (issueTypes p)); [repeat split|].
  destruct (get_issuetype R); repeat split.
Qed.

Section CreateIssue.
Variables (R : remote) (pk ty s d p : string) (asg : option string)
          (cf : gmap string json).

Let tid := value (get_issue_type_id R pk ty).
Let pid := value (get_priority_id R p).
Let request : issue_data :=
  {| d_project := pk; d_issuetype := default "" tid; d_summary := s;
     d_description := d; d_priority := default "" pid; d_assignee := asg;
     d_custom := cf |}.
Let call := create_issue R pk ty s d p asg cf.

(** Both ids resolved: one request, and the remote decides. *)
Lemma create_issue_resolved :
  given tid = true → given pid = true →
  created (trace call) = [request]
  ∧ value call = match post_issue R request with
                 | Ok k => Some k
                 | RequestException _ => None
                 end.
Proof.
  intros Ht Hp. subst call. unfold create_issue.
  rewrite trace_bind, value_bind, created_app. cbv beta.
  destruct (get_issue_type_id_reads R pk ty) as [-> _].
  fold tid. rewrite Ht. simpl negb. cbv iota.
  rewrite trace_bind, value_bind, created_app. cbv beta.
  destruct (get_priority_id_reads R p) as [-> _].
  fold pid. rewrite Hp. simpl negb. cbv iota.
  fold request. simpl.
  destruct (post_issue R request); split; reflexivity.
Qed.

(** An id missing: no request, and [None]. *)
Lemma create_issue_unresolved :
  given tid = false ∨ given pid = false →
  created (trace call) = [] ∧ value call = None.
Proof.
  intros H. subst call. unfold create_issue.
  rewrite trace_bind, value_bind, created_app. cbv beta.
  destruct (get_issue_type_id_reads R pk ty) as [-> _].
  fold tid. destruct (given tid) eqn:Ht; simpl negb; cbv iota.
  - destruct H as [H|H]; [discriminate|].
    rewrite trace_bind, value_bind, created_app. cbv beta.
    destruct (get_priority_id_reads R p) as [-> _].
    fold pid. rewrite H. split; reflexivity.
  - split; reflexivity.
Qed.

(** [create_issue] neither links nor uploads. *)
Lemma create_issue_no_link : links (trace call) = [].
Proof.
  subst call. unfold create_issue.
  rewrite trace_bind, links_app. cbv beta.
  destruct (get_issue_type_id_reads R pk ty) as (_ & -> & _).
  destruct (given _); simpl negb; cbv iota; [|reflexivity].
  rewrite trace_bind, links_app. cbv beta.
  destruct (get_priority_id_reads R p) as (_ & -> & _).
  destruct (given _); simpl negb; cbv iota; [|reflexivity].
  simpl. destruct (post_issue R _); reflexivity.
Qed.

Lemma create_issue_no_upload : uploads (trace call) = [].
Proof.
  subst call. unfold create_issue.
  rewrite trace_bind, uploads_app. cbv beta.
  destruct (get_issue_type_id_reads R pk ty) as (_ & _ & ->).
  destruct (given _); simpl negb; cbv iota; [|reflexivity].
  rewrite trace_bind, uploads_app. cbv beta.
  destruct (get_priority_id_reads R p) as (_ & _ & ->).
  destruct (given _); simpl negb; cbv iota; [|reflexivity].
  simpl. destruct (post_issue R _); reflexivity.
Qed.
End CreateIssue.

(** ** [main], step by step *)

Lemma search_existing_issue_reads (cfg : config) (R : remote) (obj pk : string) :
  created (trace (search_existing_issue cfg R obj pk)) = []
  ∧ links (trace (search_existing_issue cfg R obj pk)) = []
  ∧ uploads (trace (search_existing_issue cfg R obj pk)) = [].
Proof.
  unfold search_existing_issue.
  destruct (given _); simpl negb; cbv iota; [|repeat split].
  rewrite !trace_bind, !created_app, !links_app, !uploads_app. cbv beta.
  destruct (post_search R pk _) as [issues|e]; [|repeat split].
  destruct (filter_issues _ obj issues); repeat split.
Qed.

Lemma create_ticket_value (cfg : config) (R : remote) (a : args)
    (ex : option issue) :
  value (create_ticket cfg R a ex) = value (create_call cfg R a ex).
Proof.
  destruct ex as [e|]; unfold create_ticket, create_call; simpl ticket_summary;
    simpl ticket_description.
  - rewrite value_bind. rewrite value_bind. cbv beta.
    destruct (value (create_issue _ _ _ _ _ _ _ _)); reflexivity.
  - rewrite value_bind. cbv beta.
    destruct (value (create_issue _ _ _ _ _ _ _ _)); reflexivity.
Qed.

Lemma create_ticket_created (cfg : config) (R : remote) (a : args)
    (ex : option issue) :
  created (trace (create_ticket cfg R a ex)) = created (trace (create_call cfg R a ex)).
Proof.
  destruct ex as [e|]; unfold create_ticket, create_call; simpl ticket_summary;
    simpl ticket_description.
  - rewrite trace_bind, created_app. cbv beta.
    rewrite trace_bind, created_app. cbv beta.
    destruct (value (create_issue _ _ _ _ _ _ _ _)) as [k|].
    + simpl. destruct (post_issueLink R k (key e)) as [c|m];
        [destruct (c =? 201)%nat|]; simpl; rewrite app_nil_r; reflexivity.
    + simpl. rewrite app_nil_r. reflexivity.
  - rewrite trace_bind, created_app. cbv beta.
    destruct (value (create_issue _ _ _ _ _ _ _ _)); simpl;
      rewrite app_nil_r; reflexivity.
Qed.

(** The link call: one, after a successful linked creation, from the new
    ticket to the existing one. *)
Lemma create_ticket_links (cfg : config) (R : remote) (a : args)
    (ex : option issue) :
  links (trace (create_ticket cfg R a ex)) =
  match ex, value (create_call cfg R a ex) with
  | Some existing, Some issue_key => [(issue_key, key existing)]
  | _, _ => []
  end.
Proof.
  destruct ex as [e|]; unfold create_ticket, create_call; simpl ticket_summary;
    simpl ticket_description.
  - rewrite trace_bind, links_app. cbv beta.
    rewrite trace_bind, links_app. cbv beta.
    rewrite create_issue_no_link.
    destruct (value (create_issue _ _ _ _ _ _ _ _)) as [k|]; [|reflexivity].
    simpl. destruct (post_issueLink R k (key e)) as [c|m];
      [destruct (c =? 201)%nat|]; reflexivity.
  - rewrite trace_bind, links_app. cbv beta.
    rewrite create_issue_no_link.
    destruct (value (create_issue _ _ _ _ _ _ _ _)); reflexivity.
Qed.

Lemma create_ticket_no_upload (cfg : config) (R : remote) (a : args)
    (ex : option issue) :
  uploads (trace (create_ticket cfg R a ex)) = [].
Proof.
  destruct ex as [e|]; unfold create_ticket.
  - rewrite trace_bind, uploads_app. cbv beta.
    rewrite trace_bind, uploads_app. cbv beta.
    rewrite create_issue_no_upload.
    destruct (value (create_issue _ _ _ _ _ _ _ _)) as [k|]; [|reflexivity].
    simpl. destruct (post_issueLink R k (key e)) as [c|m];
      [destruct (c =? 201)%nat|]; reflexivity.
  - rewrite trace_bind, uploads_app. cbv beta.
    rewrite create_issue_no_upload.
    destruct (value (create_issue _ _ _ _ _ _ _ _)); reflexivity.
Qed.

(** [add_attachment] on a path that does not exist: the warning, [False],
    and nothing sent. *)
Lemma add_attachment_missing (R : remote) (issue_key file_path filename : string) :
  path_exists R file_path = false →
  add_attachment R issue_key file_path filename =
  ([Print ("Warning: Attachment file " +:+ file_path +:+ " does not exist")], false).
Proof. intros H. unfold add_attachment. rewrite H. reflexivity. Qed.

Lemma attach_trace (R : remote) (k : string) (file nm : option string)
    (what : string) :
  uploads (trace (attach R k file nm what)) = upload_of R k file nm
  ∧ created (trace (attach R k file nm what)) = []
  ∧ links (trace (attach R k file nm what)) = [].
Proof.
  unfold attach, upload_of.
  destruct (given file && given nm); [|repeat split].
  unfold add_attachment. rewrite andb_true_l.
  destruct (path_exists R (default "" file)); [|repeat split].
  destruct (open_error R (default "" file)); [repeat split|].
  simpl negb. cbv iota. unfold trace, bind. simpl.
  destruct (post_attachment R k _ _); repeat split.
Qed.

Lemma post_processing_trace (R : remote) (a : args) (k : string) :
  uploads (trace (post_processing R a k)) =
    upload_of R k (outAttachmentFile a) (outAttachmentName a)
    ++ upload_of R k (errorAttachmentFile a) (errorAttachmentName a)
  ∧ created (trace (post_processing R a k)) = []
  ∧ links (trace (post_processing R a k)) = [].
Proof.
  unfold post_processing.
  rewrite !trace_bind, !uploads_app, !created_app, !links_app. cbv beta.
  destruct (attach_trace R k (outAttachmentFile a) (outAttachmentName a) "output")
    as (-> & -> & ->).
  destruct (attach_trace R k (errorAttachmentFile a) (errorAttachmentName a) "error")
    as (-> & -> & ->).
  unfold add_comment.
  destruct (post_comment R k _); simpl; rewrite ?app_nil_r; repeat split.
Qed.

(** A run that is not the debug listing: search, ticket, then either
    [sys.exit(1)] or the attachments and the comment. *)
Lemma main_alarm (cfg : config) (R : remote) (a : args) :
  debug a = false →
  let search := search_existing_issue cfg R (objectName a) (projectKey a) in
  let ticket := create_ticket cfg R a (value search) in
  trace (main cfg R a) =
    trace search ++ trace ticket
    ++ match value ticket with
       | Some issue_key => trace (post_processing R a issue_key)
       | None => []
       end
  ∧ value (main cfg R a) = match value ticket with Some _ => 0%Z | None => 1%Z end.
Proof.
  intros Hdebug. unfold main. rewrite Hdebug. cbv zeta.
  rewrite !trace_bind, !value_bind. cbv beta.
  destruct (value (create_ticket _ _ _ _)) as [k|].
  - rewrite trace_bind. simpl. rewrite app_nil_r. split; reflexivity.
  - split; reflexivity.
Qed.

(** The debug listing only reads and prints. *)
Lemma main_debug (cfg : config) (R : remote) (a : args) :
  debug a = true →
  value (main cfg R a) = 0%Z
  ∧ created (trace (main cfg R a)) = []
  ∧ links (trace (main cfg R a)) = []
  ∧ uploads (trace (main cfg R a)) = [].
Proof.
  intros Hdebug. unfold main. rewrite Hdebug. unfold debug_listing.
  split; [reflexivity|].
  destruct (get_project R (projectKey a)) as [p|e] eqn:Hp;
    destruct (get_priority R) as [ps|e'] eqn:Hps;
    unfold trace, bind; simpl; rewrite ?Hp, ?Hps; simpl;
    rewrite ?app_nil_r, ?created_app, ?links_app, ?uploads_app;
    simpl; rewrite ?created_app, ?links_app, ?uploads_app; simpl;
    rewrite ?created_prints, ?links_prints, ?uploads_prints; repeat split.
Qed.

(** What a run that is not the debug listing writes, by what the search and
    [create_issue] return. *)
Section Alarm.
Variables (cfg : config) (R : remote) (a : args).
Hypothesis not_debug : debug a = false.

Let found := value (search_existing_issue cfg R (objectName a) (projectKey a)).

Lemma main_created :
  created (trace (main cfg R a)) = created (trace (create_call cfg R a found)).
Proof.
  destruct (main_alarm cfg R a not_debug) as [-> _].
  rewrite !created_app.
  destruct (search_existing_issue_reads cfg R (objectName a) (projectKey a))
    as (-> & _).
  rewrite create_ticket_created. fold found.
  destruct (value (create_ticket _ _ _ _)) as [k|].
  - destruct (post_processing_trace R a k) as (_ & -> & _).
    rewrite app_nil_r. reflexivity.
  - rewrite app_nil_r. reflexivity.
Qed.

Lemma main_links :
  links (trace (main cfg R a)) =
  match found, value (create_call cfg R a found) with
  | Some existing, Some issue_key => [(issue_key, key existing)]
  | _, _ => []
  end.
Proof.
  destruct (main_alarm cfg R a not_debug) as [-> _].
  rewrite !links_app.
  destruct (search_existing_issue_reads cfg R (objectName a) (projectKey a))
    as (_ & -> & _).
  rewrite create_ticket_links. fold found.
  assert (Hpost : match value (create_ticket cfg R a found) with
                  | Some k => links (trace (post_processing R a k))
                  | None => []
                  end = []).
  { destruct (value (create_ticket _ _ _ _)) as [k|]; [|reflexivity].
    apply (post_processing_trace R a k). }
  destruct (value (create_ticket _ _ _ _)) as [k|];
    rewrite ?Hpost, app_nil_r; simpl; clearbody found;
    destruct found; reflexivity.
Qed.

Lemma main_uploads :
  uploads (trace (main cfg R a)) =
  match value (create_call cfg R a found) with
  | Some k =>
      upload_of R k (outAttachmentFile a) (outAttachmentName a)
      ++ upload_of R k (errorAttachmentFile a) (errorAttachmentName a)
  | None => []
  end.
Proof.
  destruct (main_alarm cfg R a not_debug) as [-> _].
  rewrite !uploads_app.
  destruct (search_existing_issue_reads cfg R (objectName a) (projectKey a))
    as (_ & _ & ->).
  rewrite create_ticket_no_upload, create_ticket_value. fold found.
  destruct (value (create_call _ _ _ _)) as [k|]; [|reflexivity].
  destruct (post_processing_trace R a k) as (-> & _). reflexivity.
Qed.

Lemma main_exit :
  value (main cfg R a) =
  match value (create_call cfg R a found) with Some _ => 0%Z | None => 1%Z end.
Proof.
  destruct (main_alarm cfg R a not_debug) as [_ ->].
  rewrite create_ticket_value. reflexivity.
Qed.
End Alarm.

(** ** [create_call]: resolved or not *)

(** The request [main] has [create_issue] send once both ids are there. *)
Lemma create_call_resolved (cfg : config) (R : remote) (a : args)
    (ex : option issue) (tid pid : string) :
  value (get_issue_type_id R (projectKey a) (resolved_issue_type cfg a)) = Some tid →
  nonempty tid = true →
  value (get_priority_id R (resolved_priority cfg a)) = Some pid →
  nonempty pid = true →
  let request :=
    {| d_project := projectKey a; d_issuetype := tid;
       d_summary := ticket_summary a ex; d_description := ticket_description a ex;
       d_priority := pid; d_assignee := assignee a;
       d_custom := custom_fields cfg a |} in
  created (trace (create_call cfg R a ex)) = [request]
  ∧ value (create_call cfg R a ex) = match post_issue R request with
                                     | Ok k => Some k
                                     | RequestException _ => None
                                     end.
Proof.
  intros Ht Htid Hp Hpid request. unfold create_call.
  destruct (create_issue_resolved R (projectKey a) (resolved_issue_type cfg a)
              (ticket_summary a ex) (ticket_description a ex)
              (resolved_priority cfg a) (assignee a) (custom_fields cfg a))
    as [Hc Hv].
  - rewrite Ht. exact Htid.
  - rewrite Hp. exact Hpid.
  - rewrite Hc, Hv, Ht, Hp. split; reflexivity.
Qed.

Lemma create_call_unresolved (cfg : config) (R : remote) (a : args)
    (ex : option issue) :
  given (value (get_priority_id R (resolved_priority cfg a))) = false
  ∨ given (value (get_issue_type_id R (projectKey a) (resolved_issue_type cfg a)))
    = false →
  created (trace (create_call cfg R a ex)) = []
  ∧ value (create_call cfg R a ex) = None.
Proof.
  intros H. unfold create_call. apply create_issue_unresolved. tauto.
Qed.

(** Whatever is posted carries the custom fields [main] prepared. *)
Lemma create_call_custom (cfg : config) (R : remote) (a : args)
    (ex : option issue) (d : issue_data) :
  d ∈ created (trace (create_call cfg R a ex)) →
  d_custom d = custom_fields cfg a.
Proof.
  destruct (given (value (get_issue_type_id R (projectKey a)
                            (resolved_issue_type cfg a)))) eqn:Ht;
    [destruct (given (value (get_priority_id R (resolved_priority cfg a)))) eqn:Hp|].
  - apply given_Some in Ht as (tid & Ht & Htid).
    apply given_Some in Hp as (pid & Hp & Hpid).
    destruct (create_call_resolved cfg R a ex tid pid Ht Htid Hp Hpid) as [-> _].
    intros ->%list_elem_of_singleton. reflexivity.
  - destruct (create_call_unresolved cfg R a ex) as [-> _]; [tauto|].
    intros []%elem_of_nil.
  - destruct (create_call_unresolved cfg R a ex) as [-> _]; [tauto|].
    intros []%elem_of_nil.
Qed.

(** ** C5, C6: the lookups and the precondition failures *)


Lemma lookup_by_name_None (n : string) (l : list entry) :
  lookup_by_name n l = None ↔ Forall (λ e, ¬ name_matches n e) l.
Proof.
  unfold name_matches. induction l as [|e l IH]; simpl.
  - split; [constructor | reflexivity].
  - destruct (String.eqb _ _) eqn:He.
    + apply eqb_true in He. split; [discriminate|].
      intros H. inversion H; subst. contradiction.
    + apply eqb_false in He. rewrite IH. split.
      * intros H. constructor; assumption.
      * intros H. inversion H; assumption.
Qed.


(** C5. In a run that processes an alarm, when the priority name resolves
    to no priority (no entry, an entry without id, or a failed request), and
    likewise when the issue-type name resolves to no issue type, the exit
    code is 1 and no issue-creation request is sent. *)
Theorem unresolved_name_aborts (cfg : config) (R : remote) (a : args) :
  debug a = false →
  given (value (get_priority_id R (resolved_priority cfg a))) = false
  ∨ given (value (get_issue_type_id R (projectKey a) (resolved_issue_type cfg a)))
    = false →
  value (main cfg R a) = 1%Z ∧ created (trace (main cfg R a)) = [].
Proof.
  intros Hdebug Hmissing.
  rewrite main_exit, main_created by exact Hdebug.
  destruct (create_call_unresolved cfg R a
              (value (search_existing_issue cfg R (objectName a) (projectKey a)))
              Hmissing) as [-> ->].
  split; reflexivity.
Qed.

Lemma unresolved_name_aborts_witness :
  value (main Scenario.cfg Scenario.jira_no_priority Scenario.alarm) = 1%Z
  ∧ created (trace (main Scenario.cfg Scenario.jira_no_priority Scenario.alarm)) = [].
Proof.
  apply (unresolved_name_aborts Scenario.cfg Scenario.jira_no_priority Scenario.alarm).
  - reflexivity.
  - left. reflexivity.
Defined.



(** ** C1, C2, C9: linked ticket, fresh ticket, failed search *)








Lemma with_page_post_processing (R : remote) (a : args)
    (answer : response (list issue)) (k : string) :
  post_processing (with_page answer R) a k = post_processing R a k.
Proof. reflexivity. Qed.







(** ** C7: attachments *)

Lemma upload_of_elem (R : remote) (k : string) (file nm : option string)
    (k' f n : string) :
  (k', f, n) ∈ upload_of R k file nm ↔
  k' = k ∧ file = Some f ∧ nm = Some n
  ∧ nonempty f = true ∧ nonempty n = true
  ∧ path_exists R f = true ∧ open_error R f = None.
Proof.
  unfold upload_of. split.
  - destruct (given file) eqn:Hf; [|intros []%elem_of_nil].
    destruct (given nm) eqn:Hn; [|intros []%elem_of_nil].
    apply given_Some in Hf as (f0 & -> & Hf0).
    apply given_Some in Hn as (n0 & -> & Hn0). simpl.
    destruct (path_exists R f0) eqn:He; [|intros []%elem_of_nil].
    destruct (open_error R f0) eqn:Ho; [intros []%elem_of_nil|]. simpl.
    intros [= -> -> ->]%list_elem_of_singleton. auto 10.
  - intros (-> & -> & -> & Hf & Hn & He & Ho). simpl.
    rewrite Hf, Hn, He, Ho. simpl. apply list_elem_of_singleton. reflexivity.
Qed.

(** C7, as the code has it. In a run that created its ticket, the upload
    request for a log is sent exactly when its name and its path were both
    given and not empty, the path exists and the file can be opened; on a
    path that does not exist [add_attachment] prints the warning, returns
    [False] and sends nothing, and the run still ends with exit code 0. *)
Theorem attachment_upload_iff (cfg : config) (R : remote) (a : args) (k : string) :
  debug a = false →
  value (create_ticket cfg R a
           (value (search_existing_issue cfg R (objectName a) (projectKey a))))
  = Some k →
  (∀ k' f n,
     (k', f, n) ∈ uploads (trace (main cfg R a)) ↔
     k' = k
     ∧ ((outAttachmentFile a = Some f ∧ outAttachmentName a = Some n)
        ∨ (errorAttachmentFile a = Some f ∧ errorAttachmentName a = Some n))
     ∧ nonempty f = true ∧ nonempty n = true
     ∧ path_exists R f = true ∧ open_error R f = None)
  ∧ (∀ f n,
       path_exists R f = false →
       add_attachment R k f n =
       ([Print ("Warning: Attachment file " +:+ f +:+ " does not exist")], false))
  ∧ value (main cfg R a) = 0%Z.
Proof.
  intros Hdebug Hticket. rewrite create_ticket_value in Hticket.
  split; [|split].
  - intros k' f n. rewrite main_uploads by exact Hdebug. rewrite Hticket.
    rewrite elem_of_app, !upload_of_elem. tauto.
  - intros f n. apply add_attachment_missing.
  - rewrite main_exit by exact Hdebug. rewrite Hticket. reflexivity.
Qed.

Lemma attachment_upload_iff_witness :
  uploads (trace (main Scenario.cfg Scenario.jira Scenario.alarm))
  = [("PROJ-45", "/var/log/etl.out", "etl.out")]
  ∧ (("PROJ-45", "/var/log/etl.err", "etl.err")
       ∈ uploads (trace (main Scenario.cfg Scenario.jira Scenario.alarm))
     ↔ "PROJ-45" = "PROJ-45"
       ∧ ((outAttachmentFile Scenario.alarm = Some "/var/log/etl.err"
           ∧ outAttachmentName Scenario.alarm = Some "etl.err")
          ∨ (errorAttachmentFile Scenario.alarm = Some "/var/log/etl.err"
             ∧ errorAttachmentName Scenario.alarm = Some "etl.err"))
       ∧ nonempty "/var/log/etl.err" = true ∧ nonempty "etl.err" = true
       ∧ path_exists Scenario.jira "/var/log/etl.err" = true
       ∧ open_error Scenario.jira "/var/log/etl.err" = None)
  ∧ add_attachment Scenario.jira "PROJ-45" "/var/log/etl.err" "etl.err"
    = ([Print "Warning: Attachment file /var/log/etl.err does not exist"], false)
  ∧ value (main Scenario.cfg Scenario.jira Scenario.alarm) = 0%Z.
Proof.
  destruct (attachment_upload_iff Scenario.cfg Scenario.jira Scenario.alarm
              "PROJ-45") as (Hiff & Hmissing & Hexit);
    try (vm_compute; reflexivity).
  split; [vm_compute; reflexivity|].
  split; [apply Hiff|].
  split; [apply Hmissing; reflexivity | exact Hexit].
Defined.

(** C7 as stated fails. With [--outAttachmentName ""] the name and the path
    are both supplied and the path exists, the ticket is created, and nothing
    is uploaded; and when the ticket cannot be created nothing is uploaded
    although both were supplied and the path exists. *)
Lemma attachment_supplied_not_uploaded :
  (outAttachmentName Scenario.alarm_blank_name = Some ""
   ∧ outAttachmentFile Scenario.alarm_blank_name = Some "/var/log/etl.out"
   ∧ path_exists Scenario.jira "/var/log/etl.out" = true
   ∧ value (main Scenario.cfg Scenario.jira Scenario.alarm_blank_name) = 0%Z
   ∧ uploads (trace (main Scenario.cfg Scenario.jira Scenario.alarm_blank_name)) = [])
  ∧ (outAttachmentName Scenario.alarm = Some "etl.out"
     ∧ outAttachmentFile Scenario.alarm = Some "/var/log/etl.out"
     ∧ path_exists Scenario.jira_no_priority "/var/log/etl.out" = true
     ∧ value (main Scenario.cfg Scenario.jira_no_priority Scenario.alarm) = 1%Z
     ∧ uploads (trace (main Scenario.cfg Scenario.jira_no_priority Scenario.alarm))
       = []).
Proof. vm_compute. repeat split. Qed.

(** ** C8: the object-name field of a created ticket *)

Lemma fold_defaults_keeps (jsm : list (string * json)) (fid : string)
    (l : list (string * string)) (cf : gmap string json) :
  (∀ n v, (n, fid) ∈ l → dict_get n jsm = Some v → truthy v = false) →
  foldl (λ (cf : gmap string json) '(field_name, field_id),
           match dict_get field_name jsm with
           | Some default_value =>
               if truthy default_value
               then <[field_id := default_value]> cf
               else cf
           | None => cf
           end) cf l !! fid = cf !! fid.
Proof.
  revert cf. induction l as [|[n i] l IH]; intros cf Hl; [reflexivity|].
  simpl. rewrite IH.
  - destruct (dict_get n jsm) as [v|] eqn:Hv; [|reflexivity].
    destruct (truthy v) eqn:Htruthy; [|reflexivity].
    apply lookup_insert_ne. intros ->.
    rewrite (Hl n v) in Htruthy; [discriminate | left | exact Hv].
  - intros n' v' Hin. apply Hl. right. exact Hin.
Qed.

Lemma fold_job_name_keeps (obj fid : string) (l : list (string * string))
    (cf : gmap string json) :
  cf !! fid = Some (JStr obj) →
  foldl (λ (cf : gmap string json) '(field_name, field_id),
           if String.eqb field_name "vtom_job_name"
           then <[field_id := JStr obj]> cf
           else cf) cf l !! fid = Some (JStr obj).
Proof.
  revert cf. induction l as [|[n i] l IH]; intros cf Hcf; [exact Hcf|].
  simpl. apply IH. destruct (String.eqb n "vtom_job_name"); [|exact Hcf].
  rewrite lookup_insert. case_decide; [reflexivity | exact Hcf].
Qed.

Lemma custom_fields_object_name (cfg : config) (a : args) (fid : string) :
  dict_get "vtom_object_name" (custom_field_mappings cfg) = Some fid →
  nonempty fid = true →
  (∀ n v, (n, fid) ∈ custom_field_mappings cfg →
          dict_get n (jsm_default_values cfg) = Some v → truthy v = false) →
  custom_fields cfg a !! fid = Some (JStr (objectName a)).
Proof.
  intros Hfid Hne Hdefaults. unfold custom_fields.
  destruct (custom_field_mappings cfg) as [|entry0 rest] eqn:Hcfm; [discriminate|].
  rewrite Hfid. simpl given. rewrite Hne. simpl default.
  apply fold_job_name_keeps.
  destruct (jsm_default_values cfg) as [|d0 jsm] eqn:Hjsm.
  - apply lookup_insert_eq.
  - rewrite fold_defaults_keeps by exact Hdefaults. apply lookup_insert_eq.
Qed.

(** C8, as the code has it. When the configuration maps the object name to
    a field id, and no field mapped to that same id has a non-empty JSM
    default, every issue-creation request of a run carries the alarm's
    object name in that field. *)
Theorem created_ticket_carries_object_name (cfg : config) (R : remote) (a : args)
    (fid : string) (d : issue_data) :
  dict_get "vtom_object_name" (custom_field_mappings cfg) = Some fid →
  nonempty fid = true →
  (∀ n v, (n, fid) ∈ custom_field_mappings cfg →
          dict_get n (jsm_default_values cfg) = Some v → truthy v = false) →
  d ∈ created (trace (main cfg R a)) →
  issue_fields d !! fid = Some (JStr (objectName a)).
Proof.
  intros Hfid Hne Hdefaults Hd.
  destruct (debug a) eqn:Hdebug.
  - destruct (main_debug cfg R a Hdebug) as (_ & Hnone & _).
    rewrite Hnone in Hd. apply elem_of_nil in Hd. destruct Hd.
  - rewrite main_created in Hd by exact Hdebug.
    apply create_call_custom in Hd.
    unfold issue_fields. apply lookup_union_Some_l. rewrite Hd.
    apply custom_fields_object_name; assumption.
Qed.

Lemma created_ticket_carries_object_name_witness :
  issue_fields
    {| d_project := "PROJ";
       d_issuetype := "10001";
       d_summary := "Job failed";
       d_description := "exit status 3";
       d_priority := "1";
       d_assignee := None;
       d_custom := custom_fields Scenario.cfg Scenario.alarm |}
    !! "customfield_10055" = Some (JStr "ETL_NIGHTLY").
Proof.
  apply (created_ticket_carries_object_name Scenario.cfg Scenario.jira_empty
           Scenario.alarm "customfield_10055").
  - reflexivity.
  - reflexivity.
  - intros n v Hin Hv. simpl in Hin.
    rewrite !elem_of_cons in Hin.
    destruct Hin as [[= ->] | [[= _ ?] | [[= _ ?] | []%elem_of_nil]]];
      discriminate.
  - vm_compute. left.
Defined.

(** C8 as stated fails: without the object-name field in the configuration
    a ticket is created that carries no custom field, hence no object name. *)
Lemma ticket_without_object_name :
  dict_get "vtom_object_name" (custom_field_mappings Scenario.cfg_unmapped) = None
  ∧ ∃ d, created (trace (main Scenario.cfg_unmapped Scenario.jira Scenario.alarm))
         = [d]
         ∧ d_custom d = ∅
         ∧ ∀ k, issue_fields d !! k ≠ Some (JStr "ETL_NIGHTLY").
Proof.
  split; [reflexivity|].
  exists {| d_project := "PROJ";
            d_issuetype := "10001";
            d_summary := "Job failed";
            d_description := "exit status 3";
            d_priority := "1";
            d_assignee := None;
            d_custom := ∅ |}.
  split; [vm_compute; reflexivity|]. split; [reflexivity|].
  intros k. unfold issue_fields.
  cbn [d_custom d_assignee d_priority d_description d_summary d_issuetype d_project].
  rewrite (left_id_L ∅ (∪)), !lookup_insert, lookup_empty.
  repeat case_decide; discriminate.
Qed.

(** * More properties of Jira_CreateTicket.py *)

(** ** The requests of a run, in order *)

Lemma requests_app (t1 t2 : list event) :
  requests (t1 ++ t2) = requests t1 ++ requests t2.
Proof. apply List.filter_app. Qed.

Lemma requests_prints {A : Type} (f : A → string) (l : list A) :
  requests (map (λ x, Print (f x)) l) = [].
Proof. induction l as [|x l IH]; [reflexivity | exact IH]. Qed.

Lemma comments_app (t1 t2 : list event) :
  comments (t1 ++ t2) = comments t1 ++ comments t2.
Proof. apply omap_app. Qed.

Lemma get_priority_id_requests (R : remote) (n : string) :
  requests (trace (get_priority_id R n)) = [GetPriorities].
Proof. unfold get_priority_id. destruct (get_priority R); reflexivity. Qed.

Lemma get_issue_type_id_requests (R : remote) (pk n : string) :
  requests (trace (get_issue_type_id R pk n)) =
  GetProject pk
  :: match get_project R pk with
     | Ok project =>
         match lookup_by_name n (issueTypes project) with
         | Some _ => []
         | None => [GetIssueTypes]
         end
     | RequestException _ => []
     end.
Proof.
  unfold get_issue_type_id. destruct (get_project R pk) as [p|e]; [|reflexivity].
  simpl. destruct (lookup_by_name n (issueTypes p)); [reflexivity|].
  destruct (get_issuetype R); reflexivity.
Qed.

Lemma search_existing_issue_requests (cfg : config) (R : remote) (obj pk : string) :
  requests (trace (search_existing_issue cfg R obj pk)) =
  if given (dict_get "vtom_object_name" (custom_field_mappings cfg))
  then [PostSearch pk (default "" (dict_get "vtom_object_name"
                                     (custom_field_mappings cfg)))]
  else [].
Proof.
  unfold search_existing_issue.
  destruct (given _); simpl negb; cbv iota; [|reflexivity].
  rewrite !trace_bind, !requests_app. cbv beta.
  destruct (post_search R pk _) as [issues|e]; [|reflexivity].
  destruct (filter_issues _ obj issues); reflexivity.
Qed.

Lemma create_issue_requests (R : remote) (pk ty s d p : string)
    (asg : option string) (cf : gmap string json) :
  requests (trace (create_issue R pk ty s d p asg cf)) =
  requests (trace (get_issue_type_id R pk ty))
  ++ if given (value (get_issue_type_id R pk ty)) then
       GetPriorities
       :: if given (value (get_priority_id R p)) then
            [PostIssue {| d_project := pk;
                          d_issuetype := default "" (value (get_issue_type_id R pk ty));
                          d_summary := s;
                          d_description := d;
                          d_priority := default "" (value (get_priority_id R p));
                          d_assignee := asg;
                          d_custom := cf |}]
          else []
     else [].
Proof.
  unfold create_issue. rewrite trace_bind, requests_app. cbv beta. f_equal.
  destruct (given (value (get_issue_type_id R pk ty))); simpl negb; cbv iota;
    [|reflexivity].
  rewrite trace_bind, requests_app, get_priority_id_requests. cbv beta.
  destruct (given (value (get_priority_id R p))); simpl negb; cbv iota;
    [|reflexivity].
  simpl. destruct (post_issue R _); reflexivity.
Qed.

Lemma create_ticket_requests (cfg : config) (R : remote) (a : args)
    (ex : option issue) :
  requests (trace (create_ticket cfg R a ex)) =
  requests (trace (create_call cfg R a ex))
  ++ match ex, value (create_call cfg R a ex) with
     | Some existing, Some k => [PostIssueLink k (key existing)]
     | _, _ => []
     end.
Proof.
  destruct ex as [e|]; unfold create_ticket, create_call; simpl ticket_summary;
    simpl ticket_description.
  - rewrite trace_bind, requests_app. cbv beta.
    rewrite trace_bind, requests_app. cbv beta.
    destruct (value (create_issue _ _ _ _ _ _ _ _)) as [k|]; [|reflexivity].
    simpl. destruct (post_issueLink R k (key e)) as [c|m];
      [destruct (c =? 201)%nat|]; reflexivity.
  - rewrite trace_bind, requests_app. cbv beta.
    destruct (value (create_issue _ _ _ _ _ _ _ _)); reflexivity.
Qed.

Lemma attach_requests (R : remote) (k : string) (file nm : option string)
    (what : string) :
  requests (trace (attach R k file nm what))
  = upload_request <$> upload_of R k file nm.
Proof.
  unfold attach, upload_of.
  destruct (given file && given nm); [|reflexivity].
  unfold add_attachment. rewrite andb_true_l.
  destruct (path_exists R (default "" file)); [|reflexivity].
  destruct (open_error R (default "" file)); [reflexivity|].
  simpl negb. cbv iota. unfold trace, bind. simpl.
  destruct (post_attachment R k _ _); reflexivity.
Qed.

Lemma post_processing_requests (R : remote) (a : args) (k : string) :
  requests (trace (post_processing R a k)) =
  (upload_request <$> upload_of R k (outAttachmentFile a) (outAttachmentName a))
  ++ (upload_request <$> upload_of R k (errorAttachmentFile a) (errorAttachmentName a))
  ++ [PostComment k ("VTOM alarm processed at " +:+ now R)].
Proof.
  unfold post_processing. rewrite !trace_bind, !requests_app. cbv beta.
  rewrite !attach_requests. do 2 f_equal.
  unfold add_comment. destruct (post_comment R k _); reflexivity.
Qed.

Lemma main_requests (cfg : config) (R : remote) (a : args) :
  debug a = false →
  let found := value (search_existing_issue cfg R (objectName a) (projectKey a)) in
  requests (trace (main cfg R a)) =
  requests (trace (search_existing_issue cfg R (objectName a) (projectKey a)))
  ++ requests (trace (create_call cfg R a found))
  ++ match value (create_call cfg R a found) with
     | Some k =>
         match found with
         | Some existing => [PostIssueLink k (key existing)]
         | None => []
         end
         ++ requests (trace (post_processing R a k))
     | None => []
     end.
Proof.
  intros Hdebug found.
  destruct (main_alarm cfg R a Hdebug) as [-> _].
  rewrite !requests_app, create_ticket_requests, create_ticket_value.
  fold found. clearbody found. f_equal. rewrite <- app_assoc. f_equal.
  destruct found as [existing|];
    destruct (value (create_call cfg R a _)) as [k|]; reflexivity.
Qed.

Lemma debug_listing_requests (R : remote) (a : args) :
  requests (trace (debug_listing R a)) = [GetProject (projectKey a); GetPriorities].
Proof.
  unfold debug_listing. rewrite !trace_bind, !requests_app. cbv beta.
  destruct (get_project R (projectKey a)) as [p|e];
    destruct (get_priority R) as [ps|e'];
    rewrite ?trace_bind, ?requests_app; cbv beta;
    cbn [trace fst print emit ret requests List.filter is_request app];
    rewrite ?requests_prints; reflexivity.
Qed.



(** What [create_issue] sends: at most four requests. *)
Lemma create_call_requests_bound (cfg : config) (R : remote) (a : args)
    (ex : option issue) :
  length (requests (trace (create_call cfg R a ex))) ≤ 4.
Proof.
  unfold create_call. rewrite create_issue_requests, get_issue_type_id_requests.
  destruct (get_project R (projectKey a)) as [p|e];
    [destruct (lookup_by_name _ (issueTypes p))|];
    destruct (given (value (get_issue_type_id _ _ _)));
    try destruct (given (value (get_priority_id _ _))); simpl; lia.
Qed.

Lemma upload_of_bound (R : remote) (k : string) (file nm : option string) :
  length (upload_of R k file nm) ≤ 1.
Proof.
  unfold upload_of. destruct (_ && _); [|simpl; lia].
  destruct (open_error R _); simpl; lia.
Qed.

(** X2. Debug or not, a run sends at most nine requests, and there are runs
    that send nine. *)
Theorem at_most_nine_requests :
  (∀ cfg R a, length (requests (trace (main cfg R a))) ≤ 9)
  ∧ ∃ cfg R a, length (requests (trace (main cfg R a))) = 9.
Proof.
  split;
    [|exists Scenario.cfg, Cases.jira_bare_project, Scenario.alarm;
      vm_compute; reflexivity].
  intros cfg R a.
  destruct (debug a) eqn:Hdebug.
  - unfold main. rewrite Hdebug, trace_bind, requests_app, debug_listing_requests.
    simpl. lia.
  - rewrite (main_requests cfg R a Hdebug). cbv zeta.
    rewrite search_existing_issue_requests, !length_app.
    pose proof (create_call_requests_bound cfg R a
                  (value (search_existing_issue cfg R (objectName a) (projectKey a))))
      as Hcreate.
    set (found := value (search_existing_issue cfg R (objectName a) (projectKey a)))
      in *. clearbody found.
    set (call := create_call cfg R a found) in *. clearbody call.
    set (sent := length (requests (trace call))) in *. clearbody sent.
    assert (length (if given (dict_get "vtom_object_name" (custom_field_mappings cfg))
                    then [PostSearch (projectKey a)
                            (default "" (dict_get "vtom_object_name"
                                           (custom_field_mappings cfg)))]
                    else []) ≤ 1) as Hsearch
      by (destruct (given _); simpl; lia).
    set (searched := length (if given _ then _ else _)) in *. clearbody searched.
    destruct (value call) as [k|]; [|simpl; lia].
    rewrite post_processing_requests, !length_app, !length_fmap.
    pose proof (upload_of_bound R k (outAttachmentFile a) (outAttachmentName a)).
    pose proof (upload_of_bound R k (errorAttachmentFile a) (errorAttachmentName a)).
    destruct found; simpl; lia.
Qed.

(** X3. The debug listing sends the two read requests, in this order and
    whatever they answer, nothing else, and ends with exit code 0. *)
Theorem debug_run_only_lists (cfg : config) (R : remote) (a : args) :
  debug a = true →
  requests (trace (main cfg R a)) = [GetProject (projectKey a); GetPriorities]
  ∧ value (main cfg R a) = 0%Z.
Proof.
  intros Hdebug. unfold main. rewrite Hdebug. split; [|reflexivity].
  rewrite trace_bind, requests_app, debug_listing_requests. reflexivity.
Qed.

Lemma debug_run_only_lists_witness :
  requests (trace (main Scenario.cfg Scenario.jira_no_priority Cases.alarm_debug))
  = [GetProject "PROJ"; GetPriorities]
  ∧ value (main Scenario.cfg Scenario.jira_no_priority Cases.alarm_debug) = 0%Z.
Proof.
  apply (debug_run_only_lists Scenario.cfg Scenario.jira_no_priority
           Cases.alarm_debug).
  reflexivity.
Defined.

#[local] Set Warnings "-clear-no-such-hyp".

(** X4. The lookups are lazy: [create_issue] asks for the global issue-type list
    only when the project answered and lists no type of that name, and for
    the priority list only when the issue type resolved. *)
Theorem lookups_are_lazy (R : remote) (pk ty s d p : string)
    (asg : option string) (cf : gmap string json) :
  (GetIssueTypes ∈ requests (trace (create_issue R pk ty s d p asg cf))
   ↔ ∃ project, get_project R pk = Ok project
                ∧ lookup_by_name ty (issueTypes project) = None)
  ∧ (GetPriorities ∈ requests (trace (create_issue R pk ty s d p asg cf))
     ↔ given (value (get_issue_type_id R pk ty)) = true).
Proof.
  rewrite create_issue_requests, get_issue_type_id_requests.
  destruct (given (value (get_issue_type_id R pk ty)));
    destruct (given (value (get_priority_id R p)));
    (destruct (get_project R pk) as [project|e];
     [destruct (lookup_by_name ty (issueTypes project)) eqn:Hlookup|]);
    set_unfold; naive_solver.
Qed.

(** ** Exit code and comment *)

Lemma create_issue_agree (R R' : remote) (pk ty s d p : string)
    (asg : option string) (cf : gmap string json) :
  get_project R pk = get_project R' pk →
  get_issuetype R = get_issuetype R' →
  get_priority R = get_priority R' →
  (∀ x, post_issue R x = post_issue R' x) →
  value (create_issue R pk ty s d p asg cf) = value (create_issue R' pk ty s d p asg cf)
  ∧ created (trace (create_issue R pk ty s d p asg cf))
    = created (trace (create_issue R' pk ty s d p asg cf)).
Proof.
  intros Hproject Htypes Hprio Hpost.
  assert (Htid : value (get_issue_type_id R pk ty) = value (get_issue_type_id R' pk ty))
    by (rewrite !get_issue_type_id_value, Hproject, Htypes; reflexivity).
  assert (Hpid : value (get_priority_id R p) = value (get_priority_id R' p))
    by (rewrite !get_priority_id_value, Hprio; reflexivity).
  destruct (given (value (get_issue_type_id R pk ty))) eqn:Ht;
    [destruct (given (value (get_priority_id R p))) eqn:Hp|].
  - destruct (create_issue_resolved R pk ty s d p asg cf Ht Hp) as [-> ->].
    rewrite Htid in Ht. rewrite Hpid in Hp.
    destruct (create_issue_resolved R' pk ty s d p asg cf Ht Hp) as [-> ->].
    rewrite Htid, Hpid, Hpost. split; reflexivity.
  - destruct (create_issue_unresolved R pk ty s d p asg cf) as [-> ->]; [tauto|].
    rewrite Hpid in Hp.
    destruct (create_issue_unresolved R' pk ty s d p asg cf) as [-> ->]; [tauto|].
    split; reflexivity.
  - destruct (create_issue_unresolved R pk ty s d p asg cf) as [-> ->]; [tauto|].
    rewrite Htid in Ht.
    destruct (create_issue_unresolved R' pk ty s d p asg cf) as [-> ->]; [tauto|].
    split; reflexivity.
Qed.

(** X5. The exit code and the issue-creation request depend on the lookups, the
    search and the creation only: two services that answer these alike give
    the same exit code and the same request, whatever they answer to link,
    upload and comment requests and whatever the files are. *)
Theorem exit_code_ignores_best_effort (cfg : config) (R R' : remote) (a : args) :
  (∀ pk, get_project R pk = get_project R' pk) →
  get_issuetype R = get_issuetype R' →
  get_priority R = get_priority R' →
  (∀ pk fid, post_search R pk fid = post_search R' pk fid) →
  (∀ d, post_issue R d = post_issue R' d) →
  value (main cfg R a) = value (main cfg R' a)
  ∧ created (trace (main cfg R a)) = created (trace (main cfg R' a)).
Proof.
  intros Hproject Htypes Hprio Hsearch Hpost.
  destruct (debug a) eqn:Hdebug.
  - destruct (main_debug cfg R a Hdebug) as (-> & -> & _).
    destruct (main_debug cfg R' a Hdebug) as (-> & -> & _).
    split; reflexivity.
  - rewrite !main_exit, !main_created by exact Hdebug.
    assert (Hfound : value (search_existing_issue cfg R (objectName a) (projectKey a))
                     = value (search_existing_issue cfg R' (objectName a) (projectKey a))).
    { rewrite !search_existing_issue_value.
      destruct (dict_get _ _) as [fid|]; [|reflexivity].
      rewrite Hsearch. reflexivity. }
    rewrite <- Hfound. unfold create_call.
    destruct (create_issue_agree R R' (projectKey a) (resolved_issue_type cfg a)
                (ticket_summary a (value (search_existing_issue cfg R (objectName a)
                                             (projectKey a))))
                (ticket_description a (value (search_existing_issue cfg R
                                                (objectName a) (projectKey a))))
                (resolved_priority cfg a) (assignee a) (custom_fields cfg a)
                (Hproject _) Htypes Hprio Hpost) as [-> ->].
    split; reflexivity.
Qed.

Lemma exit_code_ignores_best_effort_witness :
  value (main Scenario.cfg Scenario.jira Scenario.alarm)
  = value (main Scenario.cfg Cases.jira_flaky Scenario.alarm)
  ∧ created (trace (main Scenario.cfg Scenario.jira Scenario.alarm))
    = created (trace (main Scenario.cfg Cases.jira_flaky Scenario.alarm)).
Proof.
  apply (exit_code_ignores_best_effort Scenario.cfg Scenario.jira Cases.jira_flaky
           Scenario.alarm); reflexivity.
Defined.

Lemma comments_requests (t : list event) : comments (requests t) = comments t.
Proof.
  induction t as [|e t IH]; [reflexivity|].
  destruct e; simpl; rewrite ?IH; reflexivity.
Qed.

Lemma comments_uploads (l : list (string * string * string)) :
  comments (upload_request <$> l) = [].
Proof. induction l as [|[[k f] n] l IH]; [reflexivity | exact IH]. Qed.

Lemma create_call_no_comment (cfg : config) (R : remote) (a : args)
    (ex : option issue) :
  comments (requests (trace (create_call cfg R a ex))) = [].
Proof.
  unfold create_call. rewrite create_issue_requests, get_issue_type_id_requests.
  destruct (get_project R (projectKey a)) as [p|e];
    [destruct (lookup_by_name _ (issueTypes p))|];
    destruct (given (value (get_issue_type_id _ _ _)));
    try destruct (given (value (get_priority_id _ _))); reflexivity.
Qed.

(** X6. A run comments exactly the ticket it created, once, with the time of the
    run, whether the comment request succeeds or not; a debug run and a run
    that created no ticket send no comment. *)
Theorem one_comment_per_ticket (cfg : config) (R : remote) (a : args) :
  comments (trace (main cfg R a)) =
  if debug a then []
  else match value (create_call cfg R a
                      (value (search_existing_issue cfg R (objectName a)
                                (projectKey a)))) with
       | Some k => [(k, "VTOM alarm processed at " +:+ now R)]
       | None => []
       end.
Proof.
  rewrite <- comments_requests.
  destruct (debug a) eqn:Hdebug.
  - unfold main. rewrite Hdebug, trace_bind, requests_app, debug_listing_requests.
    reflexivity.
  - rewrite (main_requests cfg R a Hdebug). cbv zeta.
    rewrite search_existing_issue_requests, !comments_app, create_call_no_comment.
    assert (comments (if given (dict_get "vtom_object_name" (custom_field_mappings cfg))
                      then [PostSearch (projectKey a)
                              (default "" (dict_get "vtom_object_name"
                                             (custom_field_mappings cfg)))]
                      else []) = []) as -> by (destruct (given _); reflexivity).
    destruct (value (create_call cfg R a _)) as [k|]; [|reflexivity].
    rewrite post_processing_requests, !comments_app, !comments_uploads.
    destruct (value (search_existing_issue _ _ _ _)); reflexivity.
Qed.

(** ** The search, in full *)

Lemma is_closed_false (status : string) :
  is_closed status = false ↔
  lower status ≠ "done" ∧ lower status ≠ "closed" ∧ lower status ≠ "resolved".
Proof.
  rewrite <- not_true_iff_false, is_closed_true. tauto.
Qed.

Lemma survives_open_match (fid obj : string) (i : issue) :
  survives fid obj i = true ↔ open_match fid obj i.
Proof.
  unfold survives, open_match.
  rewrite andb_true_iff, negb_true_iff, is_closed_false, vtom_matches_true.
  destruct (status_name i) as [s|]; simpl; split.
  - intros (Hs & Hv). split; [intros s' [= <-]; exact Hs | exact Hv].
  - intros (Hs & Hv). split; [apply Hs; reflexivity | exact Hv].
  - intros (_ & Hv). split; [intros s' [=] | exact Hv].
  - intros (_ & Hv). split; [repeat split; discriminate | exact Hv].
Qed.

(** X7. [search_existing_issue] returns a ticket exactly when the object-name
    field is configured, the search request succeeds, and the ticket is the
    first of the page that is open (no status name, or one outside done,
    closed, resolved up to case) and holds the alarm's non-empty object name
    as a string. *)
Theorem search_returns_first_open_match (cfg : config) (R : remote)
    (obj pk : string) (i : issue) :
  value (search_existing_issue cfg R obj pk) = Some i ↔
  ∃ fid newer older,
    dict_get "vtom_object_name" (custom_field_mappings cfg) = Some fid
    ∧ fid ≠ ""
    ∧ post_search R pk fid = Ok (newer ++ i :: older)
    ∧ Forall (λ j, ¬ open_match fid obj j) newer
    ∧ open_match fid obj i.
Proof.
  split.
  - intros (fid & newer & older & Hfid & Hne & Hpage & Hnewer & Hi)
      %search_existing_issue_Some.
    exists fid, newer, older. split; [exact Hfid|]. split.
    { intros ->. discriminate. }
    split; [exact Hpage|]. split.
    + eapply Forall_impl; [exact Hnewer|]. simpl. intros j Hj Hopen.
      apply survives_open_match in Hopen. congruence.
    + apply survives_open_match, Hi.
  - intros (fid & newer & older & Hfid & Hne & Hpage & Hnewer & Hi).
    rewrite search_existing_issue_value, Hfid.
    destruct fid as [|c fid]; [contradiction|]. simpl nonempty. cbv iota.
    rewrite Hpage. apply filter_issues_first.
    + eapply Forall_impl; [exact Hnewer|]. simpl. intros j Hj.
      apply not_true_iff_false. rewrite survives_open_match. exact Hj.
    + apply survives_open_match, Hi.
Qed.

(** X8. An alarm with an empty object name is never matched with a ticket: the
    search returns nothing, whatever the page holds, and the run sends no
    link request. *)
Theorem empty_object_name_never_links (cfg : config) (R : remote) (a : args) :
  objectName a = "" →
  value (search_existing_issue cfg R (objectName a) (projectKey a)) = None
  ∧ links (trace (main cfg R a)) = [].
Proof.
  intros Hobj.
  assert (Hnone : value (search_existing_issue cfg R (objectName a) (projectKey a))
                  = None).
  { destruct (value (search_existing_issue _ _ _ _)) as [i|] eqn:Hfound;
      [|reflexivity].
    apply search_existing_issue_Some in Hfound
      as (fid & _ & _ & _ & _ & _ & _ & Hi).
    apply andb_true_iff in Hi as [_ [_ Hne]%vtom_matches_true]. contradiction. }
  split; [exact Hnone|].
  destruct (debug a) eqn:Hdebug.
  - apply (main_debug cfg R a Hdebug).
  - rewrite main_links by exact Hdebug. rewrite Hnone. reflexivity.
Qed.

Lemma empty_object_name_never_links_witness :
  value (search_existing_issue Scenario.cfg Scenario.jira "" "PROJ") = None
  ∧ links (trace (main Scenario.cfg Scenario.jira Cases.alarm_no_object)) = [].
Proof.
  apply (empty_object_name_never_links Scenario.cfg Scenario.jira
           Cases.alarm_no_object).
  reflexivity.
Defined.

(** ** Severity and alarm-type mapping *)




Lemma dict_get_elem {V : Type} (k : string) (d : list (string * V)) (v : V) :
  dict_get k d = Some v → (k, v) ∈ d.
Proof.
  induction d as [|[k' v'] d IH]; simpl; [discriminate|].
  destruct (String.eqb k' k) eqn:Hk.
  - apply eqb_true in Hk as ->. intros [= ->]. left.
  - intros H. right. apply IH, H.
Qed.



(** ** The custom fields of a request *)

Lemma foldl_invariant {A B : Type} (P : A → Prop) (f : A → B → A) (l : list B)
    (x : A) :
  (∀ y b, b ∈ l → P y → P (f y b)) → P x → P (foldl f x l).
Proof.
  revert x. induction l as [|b l IH]; intros x Hstep Hx; [exact Hx|].
  simpl. apply IH.
  - intros y b' Hb'. apply Hstep. right. exact Hb'.
  - apply Hstep; [left | exact Hx].
Qed.

(** X10. [main] sends no custom field but those of the field mapping, and each
    holds either the alarm's object name or a JSM default that is not empty:
    an empty default is never sent. *)
Theorem custom_fields_from_mapping (cfg : config) (a : args) (k : string) (v : json) :
  custom_fields cfg a !! k = Some v →
  (∃ n, (n, k) ∈ custom_field_mappings cfg)
  ∧ (v = JStr (objectName a)
     ∨ (truthy v = true
        ∧ ∃ n, (n, k) ∈ custom_field_mappings cfg
               ∧ dict_get n (jsm_default_values cfg) = Some v)).
Proof.
  set (P := λ cf : gmap string json,
         ∀ k v, cf !! k = Some v →
                (∃ n, (n, k) ∈ custom_field_mappings cfg)
                ∧ (v = JStr (objectName a)
                   ∨ (truthy v = true
                      ∧ ∃ n, (n, k) ∈ custom_field_mappings cfg
                             ∧ dict_get n (jsm_default_values cfg) = Some v))).
  assert (Hempty : P ∅) by (intros k' v'; rewrite lookup_empty; discriminate).
  assert (Hobject : ∀ cf n fid, (n, fid) ∈ custom_field_mappings cfg → P cf →
                                P (<[fid := JStr (objectName a)]> cf)).
  { intros cf n fid Hin Hcf k' v'. rewrite lookup_insert. case_decide as Hk.
    - subst k'. intros [= <-]. split; [exists n; exact Hin | left; reflexivity].
    - apply Hcf. }
  assert (Hdefault : ∀ cf n fid w, (n, fid) ∈ custom_field_mappings cfg →
                                   dict_get n (jsm_default_values cfg) = Some w →
                                   truthy w = true → P cf → P (<[fid := w]> cf)).
  { intros cf n fid w Hin Hw Htruthy Hcf k' v'. rewrite lookup_insert.
    case_decide as Hk.
    - subst k'. intros [= <-]. split; [exists n; exact Hin|].
      right. split; [exact Htruthy | exists n; auto].
    - apply Hcf. }
  cut (P (custom_fields cfg a)); [intros HP; apply HP|].
  unfold custom_fields.
  destruct (custom_field_mappings cfg) as [|entry0 rest] eqn:Hcfm; [exact Hempty|].
  rewrite <- Hcfm in *.
  apply foldl_invariant.
  { intros cf [n fid] Hin Hcf.
    destruct (String.eqb n "vtom_job_name"); [|exact Hcf].
    apply (Hobject cf n fid Hin Hcf). }
  assert (Hcf0 : P (if given (dict_get "vtom_object_name" (custom_field_mappings cfg))
                    then <[default "" (dict_get "vtom_object_name"
                                         (custom_field_mappings cfg))
                           := JStr (objectName a)]> ∅
                    else ∅)).
  { destruct (dict_get "vtom_object_name" (custom_field_mappings cfg)) as [fid|]
      eqn:Hfid; [|exact Hempty].
    simpl. destruct (nonempty fid); [|exact Hempty].
    apply (Hobject ∅ "vtom_object_name" fid); [|exact Hempty].
    apply dict_get_elem, Hfid. }
  destruct (jsm_default_values cfg) as [|d0 jsm] eqn:Hjsm; [exact Hcf0|].
  rewrite <- Hjsm in *.
  apply foldl_invariant; [|exact Hcf0].
  intros cf [n fid] Hin Hcf.
  destruct (dict_get n (jsm_default_values cfg)) as [w|] eqn:Hw; [|exact Hcf].
  destruct (truthy w) eqn:Htruthy; [|exact Hcf].
  apply (Hdefault cf n fid w Hin Hw Htruthy Hcf).
Qed.

Lemma custom_fields_from_mapping_witness :
  (∃ n, (n, "customfield_10010") ∈ custom_field_mappings Scenario.cfg)
  ∧ (JStr "14" = JStr (objectName Scenario.alarm)
     ∨ (truthy (JStr "14") = true
        ∧ ∃ n, (n, "customfield_10010") ∈ custom_field_mappings Scenario.cfg
               ∧ dict_get n (jsm_default_values Scenario.cfg) = Some (JStr "14"))).
Proof.
  apply (custom_fields_from_mapping Scenario.cfg Scenario.alarm
           "customfield_10010" (JStr "14")).
  vm_compute. reflexivity.
Defined.

Lemma fold_job_name_sets (obj fid : string) (l : list (string * string))
    (cf : gmap string json) :
  ("vtom_job_name", fid) ∈ l →
  foldl (λ (cf : gmap string json) '(field_name, field_id),
           if String.eqb field_name "vtom_job_name"
           then <[field_id := JStr obj]> cf
           else cf) cf l !! fid = Some (JStr obj).
Proof.
  revert cf. induction l as [|[n i] l IH]; intros cf Hin.
  - apply elem_of_nil in Hin. destruct Hin.
  - apply elem_of_cons in Hin as [[= <- <-]|Hin].
    + simpl. apply fold_job_name_keeps, lookup_insert_eq.
    + simpl. apply IH, Hin.
Qed.

(** X11. A field the configuration maps to [vtom_job_name] always carries the
    alarm's object name, also when a JSM default was written to the same
    field id before. *)
Theorem job_name_field_wins (cfg : config) (a : args) (fid : string) :
  ("vtom_job_name", fid) ∈ custom_field_mappings cfg →
  custom_fields cfg a !! fid = Some (JStr (objectName a)).
Proof.
  intros Hin. unfold custom_fields.
  destruct (custom_field_mappings cfg) as [|entry0 rest] eqn:Hcfm.
  - apply elem_of_nil in Hin. destruct Hin.
  - rewrite <- Hcfm in *. apply fold_job_name_sets, Hin.
Qed.

Lemma job_name_field_wins_witness :
  custom_fields Cases.cfg_job_name Scenario.alarm !! "customfield_10010"
  = Some (JStr "ETL_NIGHTLY").
Proof.
  apply (job_name_field_wins Cases.cfg_job_name Scenario.alarm "customfield_10010").
  simpl. right. left.
Defined.

(** X12. A field the configuration maps to the name of a standard field replaces
    that field in every creation request a run sends: the body is updated
    with the custom fields last. *)
Theorem configured_field_overrides_standard (cfg : config) (R : remote) (a : args)
    (d : issue_data) (k : string) (v : json) :
  d ∈ created (trace (main cfg R a)) →
  custom_fields cfg a !! k = Some v →
  issue_fields d !! k = Some v.
Proof.
  intros Hd Hk.
  destruct (debug a) eqn:Hdebug.
  - destruct (main_debug cfg R a Hdebug) as (_ & Hnone & _).
    rewrite Hnone in Hd. apply elem_of_nil in Hd. destruct Hd.
  - rewrite main_created in Hd by exact Hdebug.
    apply create_call_custom in Hd.
    unfold issue_fields. apply lookup_union_Some_l. rewrite Hd. exact Hk.
Qed.

Lemma configured_field_overrides_standard_witness :
  issue_fields
    {| d_project := "PROJ";
       d_issuetype := "10001";
       d_summary := "Job failed";
       d_description := "exit status 3";
       d_priority := "2";
       d_assignee := None;
       d_custom := custom_fields Cases.cfg_summary Scenario.alarm |}
    !! "summary" = Some (JStr "ETL_NIGHTLY").
Proof.
  apply (configured_field_overrides_standard Cases.cfg_summary Scenario.jira_empty
           Scenario.alarm).
  - vm_compute. left.
  - vm_compute. reflexivity.
Defined.

(** X13. When no custom field is named like a standard field, the body holds the
    project, the issue type, the summary, the description (as a one-paragraph
    document) and the priority as passed, the assignee exactly when one was
    given, and beside these the custom fields only. *)
Theorem standard_fields_as_passed (d : issue_data) :
  (∀ k, k ∈ ["project"; "issuetype"; "summary"; "description"; "priority";
             "assignee"] → d_custom d !! k = None) →
  issue_fields d !! "project" = Some (JObj [("key", JStr (d_project d))])
  ∧ issue_fields d !! "issuetype" = Some (JObj [("id", JStr (d_issuetype d))])
  ∧ issue_fields d !! "summary" = Some (JStr (d_summary d))
  ∧ issue_fields d !! "description" = Some (adf (d_description d))
  ∧ issue_fields d !! "priority" = Some (JObj [("id", JStr (d_priority d))])
  ∧ issue_fields d !! "assignee"
    = (if given (d_assignee d)
       then Some (JObj [("emailAddress", JStr (default "" (d_assignee d)))])
       else None)
  ∧ ∀ k, k ∉ ["project"; "issuetype"; "summary"; "description"; "priority";
              "assignee"] → issue_fields d !! k = d_custom d !! k.
Proof.
  intros Hfree.
  assert (Hother : ∀ k, k ∉ ["project"; "issuetype"; "summary"; "description";
                             "priority"; "assignee"] →
                        issue_fields d !! k = d_custom d !! k).
  { intros k Hk. unfold issue_fields. cbv zeta.
    destruct (d_custom d !! k) as [v|] eqn:Hcustom;
      [apply lookup_union_Some_l, Hcustom|].
    rewrite lookup_union_r by exact Hcustom.
    destruct (d_assignee d) as [asg|]; [destruct (nonempty asg)|];
      rewrite !lookup_insert, lookup_empty;
      repeat case_decide; try reflexivity; subst k;
      exfalso; apply Hk; repeat constructor. }
  repeat split; try exact Hother.
  all: unfold issue_fields; cbv zeta;
    rewrite lookup_union_r by (apply Hfree; repeat constructor);
    destruct (d_assignee d) as [asg|]; [destruct (nonempty asg) eqn:Hasg|];
    cbn [given default]; rewrite ?Hasg;
    rewrite !lookup_insert, ?lookup_empty;
    repeat case_decide; first [discriminate | reflexivity | congruence].
Qed.

Lemma standard_fields_as_passed_witness :
  let d := {| d_project := "PROJ";
              d_issuetype := "10001";
              d_summary := "Job failed";
              d_description := "exit status 3";
              d_priority := "1";
              d_assignee := Some "ops@example.org";
              d_custom := custom_fields Scenario.cfg Scenario.alarm |} in
  issue_fields d !! "summary" = Some (JStr "Job failed")
  ∧ issue_fields d !! "assignee"
    = Some (JObj [("emailAddress", JStr "ops@example.org")])
  ∧ issue_fields d !! "customfield_10055" = Some (JStr "ETL_NIGHTLY")
  ∧ issue_fields d !! "parent" = None.
Proof.
  intros d.
  destruct (standard_fields_as_passed d)
    as (_ & _ & Hsummary & _ & _ & Hassignee & Hother).
  - intros k Hk. rewrite !elem_of_cons, elem_of_nil in Hk.
    destruct Hk as [->|[->|[->|[->|[->|[->|[]]]]]]]; vm_compute; reflexivity.
  - split; [exact Hsummary|]. split; [exact Hassignee|]. split.
    + rewrite Hother; [vm_compute; reflexivity|].
      rewrite !elem_of_cons, elem_of_nil. intros H.
      repeat destruct H as [H|H]; try discriminate H. exact H.
    + rewrite Hother; [vm_compute; reflexivity|].
      rewrite !elem_of_cons, elem_of_nil. intros H.
      repeat destruct H as [H|H]; try discriminate H. exact H.
Defined.


(** ** [add_attachment] and [create_subtask] *)

(** X14. [add_attachment] returns [True] exactly when the path exists, the file
    opens and the remote accepts the upload; it sends the upload request
    exactly when the path exists and the file opens, and never more than
    one. *)
Theorem add_attachment_outcome (R : remote) (k f n : string) :
  (value (add_attachment R k f n) = true
   ↔ path_exists R f = true ∧ open_error R f = None
     ∧ post_attachment R k f n = Ok tt)
  ∧ requests (trace (add_attachment R k f n))
    = (if path_exists R f
       then match open_error R f with
            | None => [PostAttachment k f n]
            | Some _ => []
            end
       else []).
Proof.
  unfold add_attachment.
  destruct (path_exists R f); simpl negb; cbv iota.
  - destruct (open_error R f) as [e|].
    + split; [|reflexivity]. split; [discriminate | intros (_ & [=] & _)].
    + destruct (post_attachment R k f n) as [[]|e] eqn:Hpost.
      * split; [|reflexivity]. split; [auto | reflexivity].
      * split; [|reflexivity]. split; [discriminate | intros (_ & _ & [=])].
  - split; [|reflexivity]. split; [discriminate | intros ([=] & _)].
Qed.

(** X15. [create_subtask] looks the issue type up under the name 'Sub-task',
    whatever issue type it is passed. When that type and the priority both
    resolve it sends one request, which names the parent, and returns the
    key the remote answers; otherwise it sends nothing and returns [None]. *)
Theorem create_subtask_outcome (R : remote) (post : subtask_data → response string)
    (parent pk ty s d p : string) (asg : option string) (cf : gmap string json) :
  let tid := value (get_issue_type_id R pk "Sub-task") in
  let pid := value (get_priority_id R p) in
  let request :=
    {| s_parent := parent;
       s_issue := {| d_project := pk; d_issuetype := default "" tid;
                     d_summary := s; d_description := d;
                     d_priority := default "" pid; d_assignee := asg;
                     d_custom := cf |} |} in
  let call := create_subtask R post parent pk ty s d p asg cf in
  subtasks (fst call) = (if given tid && given pid then [request] else [])
  ∧ snd call = (if given tid && given pid
                then match post request with
                     | Ok k => Some k
                     | RequestException _ => None
                     end
                else None)
  ∧ (cf !! "parent" = None →
     subtask_fields request !! "parent" = Some (JObj [("key", JStr parent)])).
Proof.
  intros tid pid request call.
  assert (Hplain : ∀ t, subtasks (Jira <$> t) = []).
  { induction t as [|e t IH]; [reflexivity | exact IH]. }
  split; [|split].
  - subst call. unfold create_subtask. fold tid pid.
    destruct (given tid); simpl negb; cbv iota; [|apply Hplain].
    destruct (given pid); simpl negb; cbv iota; [|apply Hplain].
    fold request. simpl andb. cbv iota.
    destruct (post request); cbn [fst]; unfold subtasks;
      rewrite omap_app; fold subtasks; rewrite Hplain; reflexivity.
  - subst call. unfold create_subtask. fold tid pid.
    destruct (given tid); simpl negb; cbv iota; [|reflexivity].
    destruct (given pid); simpl negb; cbv iota; [|reflexivity].
    fold request. destruct (post request); reflexivity.
  - intros Hfree. unfold subtask_fields. cbv zeta.
    rewrite lookup_union_r by exact Hfree.
    subst request. cbn [s_issue s_parent d_assignee].
    destruct asg as [asg|]; [destruct (nonempty asg)|];
      rewrite !lookup_insert; repeat case_decide;
      first [discriminate | reflexivity | congruence].
Qed.

(** * Properties of setup_config.py *)

(** ** Prompts *)



(** One turn of the loop of [get_choice]. *)
Lemma choice_loop_step (options : list (string * string)) (allow_none : bool)
    (line : string) (rest : list string) :
  snd (Setup.choice_loop options allow_none (line :: rest)) =
  match Setup.selects options allow_none line with
  | Some v => Some (v, rest)
  | None => snd (Setup.choice_loop options allow_none rest)
  end.
Proof.
  unfold Setup.selects. cbn [Setup.choice_loop].
  destruct (Setup.int (Setup.strip line)) as [[|n|n]|]; [| | |reflexivity].
  - destruct allow_none; reflexivity.
  - assert ((Z.pos n =? 0)%Z = false) as -> by reflexivity.
    assert ((1 <=? Z.pos n)%Z = true) as -> by (apply Z.leb_le; lia).
    rewrite andb_false_r, andb_true_l, Z2Nat.inj_pos.
    destruct (Z.pos n <=? Z.of_nat (length options))%Z eqn:Hle.
    + destruct (options !! (Pos.to_nat n - 1)%nat) as [[i nm]|] eqn:Hopt;
        [reflexivity|].
      apply lookup_ge_None in Hopt. apply Z.leb_le in Hle. lia.
    + apply Z.leb_gt in Hle.
      rewrite (lookup_ge_None_2 options) by lia. reflexivity.
  - assert ((Z.neg n =? 0)%Z = false) as -> by reflexivity.
    assert ((1 <=? Z.neg n)%Z = false) as -> by reflexivity.
    rewrite andb_false_r. reflexivity.
Qed.

Lemma choice_loop_option (options : list (string * string)) (allow_none : bool)
    (stdin rest : list string) (v : option string) :
  snd (Setup.choice_loop options allow_none stdin) = Some (v, rest) →
  match v with
  | Some item_id => ∃ item_name, (item_id, item_name) ∈ options
  | None => allow_none = true
  end
  ∧ ∃ used, used ≠ [] ∧ stdin = used ++ rest.
Proof.
  induction stdin as [|line stdin IH]; [discriminate|].
  rewrite choice_loop_step.
  destruct (Setup.selects options allow_none line) as [w|] eqn:Hsel.
  - intros [= -> ->]. split; [|exists [line]; split; [discriminate | reflexivity]].
    unfold Setup.selects in Hsel.
    destruct (Setup.int (Setup.strip line)) as [[|n|n]|]; try discriminate.
    + destruct allow_none; [|discriminate]. injection Hsel as <-. reflexivity.
    + destruct (options !! (Pos.to_nat n - 1)%nat) as [[i nm]|] eqn:Hopt;
        [|discriminate].
      injection Hsel as <-. exists nm. eapply list_elem_of_lookup_2, Hopt.
  - intros H. destruct (IH H) as (Hv & used & _ & ->).
    split; [exact Hv|]. exists (line :: used). split; [discriminate | reflexivity].
Qed.

(** X17. What [get_choice] returns is the id of one of the options it listed, or
    [None] when skipping is allowed; it has read at least one line. *)
Theorem get_choice_returns_an_option (prompt : string)
    (options : list (string * string)) (allow_none : bool)
    (stdin rest : list string) (v : option string) :
  snd (Setup.get_choice prompt options allow_none stdin) = Some (v, rest) →
  match v with
  | Some item_id => ∃ item_name, (item_id, item_name) ∈ options
  | None => allow_none = true
  end
  ∧ ∃ used, used ≠ [] ∧ stdin = used ++ rest.
Proof.
  unfold Setup.get_choice. cbn [snd]. intros Hloop.
  apply choice_loop_option in Hloop as [Hv Hused].
  split; [exact Hv | exact Hused].
Qed.

Lemma get_choice_returns_an_option_witness :
  (∃ item_name, ("b", item_name) ∈ [("a", "Alpha"); ("b", "Beta")])
  ∧ ∃ used, used ≠ [] ∧ ["x"; "5"; " 2 "; "1"] = used ++ ["1"].
Proof.
  apply (get_choice_returns_an_option "Pick:" [("a", "Alpha"); ("b", "Beta")] true
           ["x"; "5"; " 2 "; "1"] ["1"] (Some "b")).
  vm_compute. reflexivity.
Defined.



(** X19. Asked to choose among no options without the right to skip,
    [get_choice] never returns: it reads every line and stops on the end of
    input. [setup_project] guards its call against this, [setup_issue_type]
    and [setup_priority] too. *)
Theorem get_choice_without_options_never_returns (prompt : string)
    (stdin : list string) :
  snd (Setup.get_choice prompt [] false stdin) = None.
Proof.
  unfold Setup.get_choice. cbn [snd].
  induction stdin as [|line stdin IH]; [reflexivity|].
  rewrite choice_loop_step.
  assert (Setup.selects [] false line = None) as ->; [|exact IH].
  unfold Setup.selects.
  destruct (Setup.int (Setup.strip line)) as [[|n|n]|]; reflexivity.
Qed.

(** ** Discovery of the custom fields *)







Lemma dict_set_elem {V : Type} (k : string) (v : V) (d : list (string * V))
    (k' : string) (v' : V) :
  (k', v') ∈ Setup.dict_set k v d → (k' = k ∧ v' = v) ∨ (k', v') ∈ d.
Proof.
  induction d as [|[k0 v0] d IH]; simpl.
  - intros [= -> ->]%list_elem_of_singleton. left. auto.
  - destruct (String.eqb k0 k) eqn:Hk.
    + intros [[= -> ->]|H]%elem_of_cons; [left; auto|]. right. right. exact H.
    + intros [[= -> ->]|H]%elem_of_cons; [right; left|].
      destruct (IH H) as [?|?]; [left; assumption | right; right; assumption].
Qed.

Lemma dict_set_keys {V : Type} (k : string) (v : V) (d : list (string * V)) :
  (Setup.dict_set k v d).*1 = if bool_decide (k ∈ d.*1) then d.*1 else d.*1 ++ [k].
Proof.
  induction d as [|[k0 v0] d IH]; [reflexivity|].
  cbn [Setup.dict_set]. destruct (String.eqb k0 k) eqn:Hk.
  - apply eqb_true in Hk as ->. rewrite !fmap_cons. cbn [fst].
    rewrite bool_decide_eq_true_2 by left. reflexivity.
  - apply eqb_false in Hk. rewrite !fmap_cons, IH. cbn [fst].
    destruct (bool_decide (k ∈ d.*1)) eqn:Hin.
    + apply bool_decide_eq_true in Hin.
      rewrite bool_decide_eq_true_2 by (right; exact Hin). reflexivity.
    + apply bool_decide_eq_false in Hin.
      rewrite bool_decide_eq_false_2; [reflexivity|].
      intros [?|?]%elem_of_cons; [congruence | contradiction].
Qed.

Lemma dict_set_NoDup {V : Type} (k : string) (v : V) (d : list (string * V)) :
  NoDup d.*1 → NoDup (Setup.dict_set k v d).*1.
Proof.
  intros Hd. rewrite dict_set_keys.
  destruct (bool_decide (k ∈ d.*1)) eqn:Hin; [exact Hd|].
  apply bool_decide_eq_false in Hin.
  apply NoDup_app. split; [exact Hd|]. split.
  - intros x Hx ->%list_elem_of_singleton. contradiction.
  - apply NoDup_singleton.
Qed.

(** X21. The dict [get_custom_fields] returns has one entry per field id, every
    id starts with [customfield_], and every entry comes from an issue type
    whose name is the wanted one, letter case included; a failed request
    gives the empty dict. *)
Theorem get_custom_fields_are_custom (resp : response (list Setup.meta_project))
    (issue_type : option string) :
  NoDup (snd (Setup.get_custom_fields resp issue_type)).*1
  ∧ (∀ field_id field_name,
       (field_id, field_name) ∈ snd (Setup.get_custom_fields resp issue_type) →
       String.prefix "customfield_" field_id = true
       ∧ ∃ projects project it field_info,
           resp = Ok projects ∧ project ∈ projects
           ∧ it ∈ Setup.issuetypes project
           ∧ Some (Setup.it_name it) = issue_type
           ∧ (field_id, field_info) ∈ Setup.it_fields it
           ∧ field_name = default "Unknown" field_info)
  ∧ (∀ e, resp = RequestException e →
          snd (Setup.get_custom_fields resp issue_type) = []).
Proof.
  destruct resp as [projects|e]; simpl.
  2: { split; [constructor|]. split; [|reflexivity].
       intros ? ? []%elem_of_nil. }
  set (P := λ cf : list (string * string),
         NoDup cf.*1
         ∧ ∀ field_id field_name,
             (field_id, field_name) ∈ cf →
             String.prefix "customfield_" field_id = true
             ∧ ∃ project it field_info,
                 project ∈ projects ∧ it ∈ Setup.issuetypes project
                 ∧ Some (Setup.it_name it) = issue_type
                 ∧ (field_id, field_info) ∈ Setup.it_fields it
                 ∧ field_name = default "Unknown" field_info).
  cut (P (foldl (λ cf project,
                   foldl (λ cf it,
                            if bool_decide (Some (Setup.it_name it) = issue_type)
                            then Setup.collect_fields cf (Setup.it_fields it)
                            else cf)
                         cf (Setup.issuetypes project))
                [] projects)).
  { intros [Hnodup Hall]. split; [exact Hnodup|]. split; [|discriminate].
    intros fid fname Hin. destruct (Hall fid fname Hin)
      as (Hprefix & project & it & info & H).
    split; [exact Hprefix|]. exists projects, project, it, info. tauto. }
  apply foldl_invariant.
  2: { split; [constructor | intros ? ? []%elem_of_nil]. }
  intros cf project Hproject Hcf. apply foldl_invariant; [|exact Hcf].
  clear cf Hcf. intros cf it Hit Hcf.
  destruct (bool_decide (Some (Setup.it_name it) = issue_type)) eqn:Hname;
    [|exact Hcf].
  apply bool_decide_eq_true in Hname.
  unfold Setup.collect_fields. apply foldl_invariant; [|exact Hcf].
  clear cf Hcf. intros cf [fid info] Hfield [Hnodup Hall].
  destruct (String.prefix "customfield_" fid) eqn:Hprefix; [|split; assumption].
  split; [apply dict_set_NoDup, Hnodup|].
  intros fid' fname' [[-> ->]|Hin]%dict_set_elem; [|apply Hall, Hin].
  split; [exact Hprefix|]. exists project, it, info. auto.
Qed.

(** ** The steps of the wizard *)

Lemma wizard_bind_Some {A B : Type} (m : Setup.wizard A) (k : A → Setup.wizard B)
    (stdin : list string) (r : B * list string) :
  snd (Setup.bind m k stdin) = Some r ↔
  ∃ a rest, snd (m stdin) = Some (a, rest) ∧ snd (k a rest) = Some r.
Proof.
  unfold Setup.bind. destruct (m stdin) as [out [[a rest]|]]; simpl.
  - split; [intros H; exists a, rest; auto | intros (a' & rest' & [= <- <-] & H); exact H].
  - split; [discriminate | intros (a' & rest' & [=] & _)].
Qed.

Lemma print_step_returns (step : nat) (text : string) (stdin : list string) :
  snd (Setup.print_step step text stdin) = Some (tt, stdin).
Proof. reflexivity. Qed.

Lemma lookup_by_name_found (t : string) (l : list entry) (e : entry) :
  e ∈ l → name e = t → is_Some (lookup_by_name t l).
Proof.
  intros Hin Hname. destruct (lookup_by_name t l) eqn:Hlookup; [eauto|].
  apply lookup_by_name_None in Hlookup.
  rewrite Forall_forall in Hlookup. destruct (Hlookup e Hin).
  unfold name_matches. congruence.
Qed.

(** X22. Step 3 stores a default issue type and changes nothing else: "Incident"
    when the project lists no issue type or the request failed, otherwise the
    name of one of the project's issue types, which the runtime lookup
    [get_issue_type_id] then resolves against that project. *)
Theorem wizard_issue_type_resolves (resp : response project_data)
    (config config' : gmap string (option string)) (stdin rest : list string) :
  snd (Setup.setup_issue_type resp config stdin) = Some (config', rest) →
  ∃ t, config' = <["default_issue_type" := Some t]> config
       ∧ match resp with
         | Ok project =>
             (issueTypes project = [] ∧ t = "Incident")
             ∨ ((∃ e, e ∈ issueTypes project ∧ name e = t)
                ∧ ∀ R pk, get_project R pk = Ok project →
                            is_Some (value (get_issue_type_id R pk t)))
         | RequestException _ => t = "Incident"
         end.
Proof.
  unfold Setup.setup_issue_type.
  intros (_ & s1 & _ & (_ & s2 & _ & (_ & s3 & _ & (types & s4 & Htypes & H)
    %wizard_bind_Some)%wizard_bind_Some)%wizard_bind_Some)%wizard_bind_Some.
  unfold Setup.said in Htypes. injection Htypes as <- <-.
  destruct resp as [project|e]; cbn [Setup.get_issue_types snd] in H.
  - destruct ((λ it, (name it, name it)) <$> issueTypes project)
      as [|option0 options] eqn:Hoptions.
    + injection H as <- <-. exists "Incident". split; [reflexivity|]. left.
      split; [|reflexivity]. eapply fmap_nil_inv, Hoptions.
    + rewrite <- Hoptions in H.
      apply wizard_bind_Some in H as (choice & s5 & Hchoice & H).
      injection H as <- <-.
      unfold Setup.get_choice in Hchoice. cbn [snd] in Hchoice.
      apply choice_loop_option in Hchoice as [Hv _].
      destruct choice as [t|]; [|discriminate].
      destruct Hv as (nm & (e & [= -> ->] & He)%list_elem_of_fmap).
      exists (name e). split; [reflexivity|]. right. split; [exists e; auto|].
      intros R pk Hproject. rewrite get_issue_type_id_value, Hproject.
      destruct (lookup_by_name_found (name e) (issueTypes project) e He eq_refl)
        as [i ->].
      eauto.
  - injection H as <- <-. exists "Incident". split; reflexivity.
Qed.

Lemma wizard_issue_type_resolves_witness :
  ∃ t, <["default_issue_type" := Some "Incident"]>
         ({["default_project_key" := Some "PROJ"]} : gmap string (option string))
       = <["default_issue_type" := Some t]> {["default_project_key" := Some "PROJ"]}
       ∧ ((issueTypes {| project_name := Some "Operations";
                         issueTypes := [Entry "Task" "10002"; Entry "Incident" "10001"] |}
           = [] ∧ t = "Incident")
          ∨ ((∃ e, e ∈ [Entry "Task" "10002"; Entry "Incident" "10001"] ∧ name e = t)
             ∧ ∀ R pk,
                 get_project R pk
                 = Ok {| project_name := Some "Operations";
                         issueTypes := [Entry "Task" "10002"; Entry "Incident" "10001"] |} →
                 is_Some (value (get_issue_type_id R pk t)))).
Proof.
  apply (wizard_issue_type_resolves
           (Ok {| project_name := Some "Operations";
                  issueTypes := [Entry "Task" "10002"; Entry "Incident" "10001"] |})
           {["default_project_key" := Some "PROJ"]}
           (<["default_issue_type" := Some "Incident"]>
              {["default_project_key" := Some "PROJ"]})
           ["two"; "2"; "1"] ["1"]).
  vm_compute. reflexivity.
Defined.

(** X23. Step 4 stores a default priority and changes nothing else: "High" when
    the remote lists no priority or the request failed, otherwise the name of
    one of the listed priorities, which the runtime lookup [get_priority_id]
    then resolves against that list. *)
Theorem wizard_priority_resolves (resp : response (list entry))
    (config config' : gmap string (option string)) (stdin rest : list string) :
  snd (Setup.setup_priority resp config stdin) = Some (config', rest) →
  ∃ t, config' = <["default_priority" := Some t]> config
       ∧ match resp with
         | Ok priorities =>
             (priorities = [] ∧ t = "High")
             ∨ ((∃ e, e ∈ priorities ∧ name e = t)
                ∧ ∀ R, get_priority R = Ok priorities →
                       is_Some (value (get_priority_id R t)))
         | RequestException _ => t = "High"
         end.
Proof.
  unfold Setup.setup_priority.
  intros (_ & s1 & _ & (_ & s2 & _ & (options & s3 & Hoptions & H)
    %wizard_bind_Some)%wizard_bind_Some)%wizard_bind_Some.
  unfold Setup.said in Hoptions. injection Hoptions as <- <-.
  destruct resp as [priorities|e]; cbn [Setup.get_priorities snd] in H.
  - destruct ((λ p, (name p, name p)) <$> priorities)
      as [|option0 options] eqn:Hoptions.
    + injection H as <- <-. exists "High". split; [reflexivity|]. left.
      split; [|reflexivity]. eapply fmap_nil_inv, Hoptions.
    + rewrite <- Hoptions in H.
      apply wizard_bind_Some in H as (choice & s4 & Hchoice & H).
      injection H as <- <-.
      unfold Setup.get_choice in Hchoice. cbn [snd] in Hchoice.
      apply choice_loop_option in Hchoice as [Hv _].
      destruct choice as [t|]; [|discriminate].
      destruct Hv as (nm & (e & [= -> ->] & He)%list_elem_of_fmap).
      exists (name e). split; [reflexivity|]. right. split; [exists e; auto|].
      intros R Hlist. rewrite get_priority_id_value, Hlist.
      apply (lookup_by_name_found (name e) priorities e He eq_refl).
  - injection H as <- <-. exists "High". split; reflexivity.
Qed.

Lemma wizard_priority_resolves_witness :
  ∃ t, <["default_priority" := Some "High"]> (∅ : gmap string (option string))
       = <["default_priority" := Some t]> ∅
       ∧ t = "High".
Proof.
  apply (wizard_priority_resolves (RequestException "401 Unauthorized") ∅
           (<["default_priority" := Some "High"]> ∅) ["1"] ["1"]).
  vm_compute. reflexivity.
Defined.

Lemma find_custom_field_listed (custom_fields : list (string * string))
    (search_terms : list string) (field_id : string) :
  Setup.find_custom_field_by_name custom_fields search_terms = Some field_id →
  field_id ∈ custom_fields.*1.
Proof.
  induction custom_fields as [|[fid fname] rest IH]; [discriminate|].
  simpl. destruct (existsb _ search_terms).
  - intros [= <-]. left.
  - intros H. right. apply IH, H.
Qed.

Lemma store_found_stores (custom_fields : list (string * string))
    (search_terms : list string) (k found_line : string) (missing_line : option string)
    (config config' : gmap string (option string)) (stdin rest : list string) :
  snd (Setup.store_found custom_fields search_terms k found_line missing_line
         config stdin) = Some (config', rest) →
  rest = stdin
  ∧ ∃ v, config' = <[k := v]> config
         ∧ ∀ field_id, v = Some field_id → field_id ∈ custom_fields.*1.
Proof.
  unfold Setup.store_found.
  destruct (Setup.find_custom_field_by_name custom_fields search_terms)
    as [fid|] eqn:Hfind.
  - destruct (given (Some fid)).
    + intros [= <- <-]. split; [reflexivity|]. exists (Some fid).
      split; [reflexivity|]. intros ? [= <-].
      eapply find_custom_field_listed, Hfind.
    + destruct missing_line; intros [= <- <-]; (split; [reflexivity|]);
        exists None; (split; [reflexivity | discriminate]).
  - cbn [given].
    destruct missing_line; intros [= <- <-]; (split; [reflexivity|]);
      exists None; (split; [reflexivity | discriminate]).
Qed.

(** X24. Step 5 changes the configuration only when custom fields were
    discovered; it then stores the four field entries, and each is [None] or
    the id of a discovered custom field, whatever the user answers. *)
Theorem wizard_stores_discovered_fields (resp : response (list Setup.meta_project))
    (config config' : gmap string (option string)) (stdin rest : list string) :
  snd (Setup.setup_custom_fields resp config stdin) = Some (config', rest) →
  ∃ issue_type,
    config !! "default_issue_type" = Some issue_type
    ∧ let discovered := snd (Setup.get_custom_fields resp issue_type) in
      (discovered = [] ∧ config' = config)
      ∨ (discovered ≠ []
         ∧ ∃ vtom request_type services organizations,
             config' = <["organizations_field" := organizations]>
                         (<["affected_services_field" := services]>
                            (<["request_type_field" := request_type]>
                               (<["vtom_object_name_field" := vtom]> config)))
             ∧ Forall (λ v, ∀ field_id, v = Some field_id →
                                        field_id ∈ discovered.*1)
                      [vtom; request_type; services; organizations]).
Proof.
  unfold Setup.setup_custom_fields.
  intros (_ & s1 & _ & (_ & s2 & _ & (_ & s3 & _ & (issue_type & s4 & Htype
    & (discovered & s5 & Hdiscovered & H)%wizard_bind_Some)%wizard_bind_Some)
    %wizard_bind_Some)%wizard_bind_Some)%wizard_bind_Some.
  exists issue_type. split.
  { unfold Setup.config_item in Htype.
    destruct (config !! "default_issue_type"); [|discriminate].
    injection Htype as <- _. reflexivity. }
  unfold Setup.said in Hdiscovered. injection Hdiscovered as <- <-. cbv zeta.
  destruct (snd (Setup.get_custom_fields resp issue_type)) as [|f0 fields] eqn:Hfields.
  { left. apply wizard_bind_Some in H as (_ & s6 & _ & H).
    injection H as <- _. auto. }
  right. split; [discriminate|]. rewrite <- Hfields in *.
  set (discovered := snd (Setup.get_custom_fields resp issue_type)) in *.
  apply wizard_bind_Some in H as (_ & s6 & _ & H).
  apply wizard_bind_Some in H as (_ & s7 & _ & H).
  apply wizard_bind_Some in H as (_ & s8 & _ & H).
  apply wizard_bind_Some in H as (vtom0 & s9 & Hvtom0 & H).
  apply wizard_bind_Some in H as (vtom & s10 & Hvtom & H).
  apply wizard_bind_Some in H as (_ & s11 & _ & H).
  apply wizard_bind_Some in H as (_ & s12 & _ & H).
  apply wizard_bind_Some in H as (c1 & s13 & (_ & request_type & -> & Hreq)%store_found_stores & H).
  apply wizard_bind_Some in H as (_ & s14 & _ & H).
  apply wizard_bind_Some in H as (c2 & s15 & (_ & services & -> & Hserv)%store_found_stores & H).
  apply wizard_bind_Some in H as (_ & s16 & _ & H).
  apply store_found_stores in H as (_ & organizations & -> & Horg).
  exists vtom, request_type, services, organizations.
  split; [reflexivity|].
  repeat constructor; try assumption.
  assert (Hvtom0_listed : ∀ fid, vtom0 = Some fid → fid ∈ discovered.*1).
  { intros fid ->. revert Hvtom0.
    destruct (Setup.find_custom_field_by_name discovered ["vtom"; "object"; "name"])
      as [suggested|] eqn:Hfind; [|discriminate].
    destruct (given (Some suggested));
      [|intros [= <- _]; eapply find_custom_field_listed, Hfind].
    intros (_ & s' & _ & (answer & s'' & _ & Hret)%wizard_bind_Some)%wizard_bind_Some.
    destruct (String.eqb (lower answer) "y"); [|discriminate].
    injection Hret as <- _. eapply find_custom_field_listed, Hfind. }
  intros fid ->. revert Hvtom.
  destruct (given vtom0) eqn:Hgiven.
  - intros [= Hv _]. apply Hvtom0_listed, Hv.
  - unfold Setup.get_choice. cbn [snd].
    intros [(nm & ([f n] & [= -> ->] & Hin)%list_elem_of_fmap) _]%choice_loop_option.
    apply list_elem_of_fmap. exists (f, n). auto.
Qed.

Lemma wizard_stores_discovered_fields_witness :
  ∃ issue_type,
    WizardCase.config3 !! "default_issue_type" = Some issue_type
    ∧ let discovered :=
        snd (Setup.get_custom_fields (Ok WizardCase.createmeta) issue_type) in
      (discovered = [] ∧ WizardCase.config5 = WizardCase.config3)
      ∨ (discovered ≠ []
         ∧ ∃ vtom request_type services organizations,
             WizardCase.config5
             = <["organizations_field" := organizations]>
                 (<["affected_services_field" := services]>
                    (<["request_type_field" := request_type]>
                       (<["vtom_object_name_field" := vtom]> WizardCase.config3)))
             ∧ Forall (λ v, ∀ field_id, v = Some field_id →
                                        field_id ∈ discovered.*1)
                      [vtom; request_type; services; organizations]).
Proof.
  apply (wizard_stores_discovered_fields (Ok WizardCase.createmeta)
           WizardCase.config3 WizardCase.config5 ["n"; "9"; "2"; "x"] ["x"]).
  vm_compute. reflexivity.
Defined.
